(** * VB6 Project Mapper: registry, graph queries and diagram projections

    A shallow embedding of the Python sources

      - [models/components.py]             (VB6Component, VB6Project)
      - [utils/helpers.py]                 (count_components_by_type,
                                            has_dependents, get_dependents)
      - [parsers/vbp_parser.py]            (parse_vbp_file,
                                            add_component_from_line)
      - [generators/json_generator.py]     (export_json)
      - [generators/diagrams/*.py]         (core, form and business views)

    Python [str] values are modelled by [string]; the manifest is decoded
    as latin-1, so one [ascii] stands for one code point below 256. *)

From Stdlib Require Import Ascii String.
From stdpp Require Import base decidable option list sorting.
From stdpp Require Import strings pretty gmap.

Open Scope string_scope.
Open Scope list_scope.
Open Scope nat_scope.

(* ===================================================================== *)
(** ** Python string primitives                                           *)
(* ===================================================================== *)

Module PyStr.

(** [str.lower()] on the latin-1 range: A-Z and the accented capitals
    U+00C0..U+00DE (the multiplication sign U+00D7 apart) move up by 32. *)
Definition lower_char (a : ascii) : ascii :=
  let n := N_of_ascii a in
  if ((65 <=? n) && (n <=? 90))%N
     || ((192 <=? n) && (n <=? 222) && negb (n =? 215))%N
  then ascii_of_N (n + 32) else a.

Fixpoint lower (s : string) : string :=
  match s with
  | EmptyString => EmptyString
  | String a s' => String (lower_char a) (lower s')
  end.

(** [f"{prefix}{i}"] *)
Definition fmt_id (prefix_ : string) (i : nat) : string := prefix_ +:+ pretty i.

(** Whitespace of [str.strip()] below U+0100. *)
Definition isspace (a : ascii) : bool :=
  let n := N_of_ascii a in
  (((9 <=? n) && (n <=? 13)) || ((28 <=? n) && (n <=? 32))
   || (n =? 133) || (n =? 160))%N.

Fixpoint lstrip (s : string) : string :=
  match s with
  | EmptyString => EmptyString
  | String a s' => if isspace a then lstrip s' else s
  end.

Definition rstrip (s : string) : string := String.rev (lstrip (String.rev s)).

Definition strip (s : string) : string := rstrip (lstrip s).

(** [s[n:]] *)
Fixpoint drop_chars (n : nat) (s : string) : string :=
  match n, s with
  | O, _ => s
  | S n', String _ s' => drop_chars n' s'
  | S _, EmptyString => EmptyString
  end.

(** [s[:-1]] *)
Fixpoint drop_last (s : string) : string :=
  match s with
  | EmptyString => EmptyString
  | String a EmptyString => EmptyString
  | String a s' => String a (drop_last s')
  end.

(** [s[1:-1]] *)
Definition inner (s : string) : string := drop_last (drop_chars 1 s).

Definition startswith (s pre : string) : bool := String.prefix pre s.

(** [s.endswith(c)] for a one-character [c]. *)
Fixpoint endswith_char (s : string) (c : ascii) : bool :=
  match s with
  | EmptyString => false
  | String a EmptyString => bool_decide (a = c)
  | String _ s' => endswith_char s' c
  end.

(** [s.split(sep)] for a one-character separator: never empty. *)
Fixpoint split (sep : ascii) (s : string) : list string :=
  match s with
  | EmptyString => [EmptyString]
  | String a s' =>
      if decide (a = sep) then EmptyString :: split sep s'
      else match split sep s' with
           | x :: xs => String a x :: xs
           | [] => [String a EmptyString]
           end
  end.

(** [s.split(sep, 1)] when [sep in s]: the text before and after the
    first separator; [None] when [sep not in s]. *)
Fixpoint split_once (sep : ascii) (s : string) : option (string * string) :=
  match s with
  | EmptyString => None
  | String a s' =>
      if decide (a = sep) then Some (EmptyString, s')
      else match split_once sep s' with
           | Some (k, v) => Some (String a k, v)
           | None => None
           end
  end.

(** The lines a text-mode file yields, up to their terminators: the
    callers [strip()] every line and skip the empty ones, so cutting at
    every CR and LF gives the lines they process. *)
Fixpoint splitlines (s : string) : list string :=
  match s with
  | EmptyString => [EmptyString]
  | String a s' =>
      if bool_decide (a = "010"%char) || bool_decide (a = "013"%char)
      then EmptyString :: splitlines s'
      else match splitlines s' with
           | x :: xs => String a x :: xs
           | [] => [String a EmptyString]
           end
  end.

(** Removal of one pair of surrounding quotes, as both readers of the
    manifest do it:
    [if (v.startswith('"') and v.endswith('"')) or
        (v.startswith("'") and v.endswith("'")): v = v[1:-1]] *)
Definition unquote (v : string) : string :=
  if (startswith v (String "034"%char EmptyString) && endswith_char v "034"%char)
     || (startswith v "'" && endswith_char v "'"%char)
  then inner v else v.

End PyStr.

Import PyStr.

(* ===================================================================== *)
(** ** models/components.py                                               *)
(* ===================================================================== *)

Record VB6Component := mkComponent {
  name : string;
  filename : string;
  component_type : string;
  dependencies : list string;
  content : string
}.

Record VB6Project := mkProject {
  proj_name : string;
  proj_path : string;
  proj_filename : string;
  components : list VB6Component
}.

Global Instance VB6Component_eq_dec : EqDecision VB6Component.
Proof. solve_decision. Defined.

(** Components are heap objects: [==] and [!=] on them, and their hash in a
    [set], go by object identity.  Every object of a registry is allocated
    by [add_component], once, so its position in [components] identifies
    it.  An [Obj] is such a reference together with the state it points to. *)
Record Obj := mkObj {
  addr : nat;
  state :> VB6Component
}.

Global Instance Obj_eq_dec : EqDecision Obj.
Proof. solve_decision. Defined.

Definition objects (p : VB6Project) : list Obj := imap mkObj (components p).

(** [VB6Project.__init__] *)
Definition new_project : VB6Project := mkProject "" "" "" [].

(** [VB6Component.__init__] *)
Definition new_component (nm fn ty : string) : VB6Component :=
  mkComponent nm fn ty [] "".

(** [VB6Project.add_component] *)
Definition add_component (p : VB6Project) (nm fn ty : string) : VB6Project :=
  mkProject (proj_name p) (proj_path p) (proj_filename p)
            (components p ++ [new_component nm fn ty]).

(** The loop of [find_component_by_name]: the first component whose
    lower-cased name equals the lower-cased argument. *)
Fixpoint find_in (objs : list Obj) (nm : string) : option Obj :=
  match objs with
  | [] => None
  | component :: rest =>
      if decide (lower (name component) = lower nm) then Some component
      else find_in rest nm
  end.

Definition find_component_by_name (p : VB6Project) (nm : string) : option Obj :=
  find_in (objects p) nm.

(* ===================================================================== *)
(** ** The interpreter and its platform                                   *)
(* ===================================================================== *)

(** The order in which a Python [set] built from the list [l] is iterated.
    The language fixes only that every member comes once.  For [str]
    members the order follows the string hash, which CPython salts anew
    for every interpreter process (PYTHONHASHSEED); for objects it follows
    their addresses.  Within one process it is a function of the
    insertions. *)
Record SetOrder (A : Type) := mkSetOrder {
  items : list A → list A;
  items_NoDup : ∀ l, NoDup (items l);
  items_elem : ∀ l x, x ∈ items l ↔ x ∈ l
}.
Arguments items {A} _ _.
Arguments items_NoDup {A} _ _.
Arguments items_elem {A} _ _ _.

(** One run of the interpreter: its set orders, the [os.path] flavour of
    the platform, and the files it can read and write. *)
Record PyRuntime := mkRuntime {
  str_set : SetOrder string;
  obj_set : SetOrder Obj;
  os_path_basename : string → string;
  os_path_dirname : string → string;
  os_path_splitext : string → string * string;
  fs_read : string → option string;
  fs_can_write : string → bool
}.

(* ===================================================================== *)
(** ** utils/helpers.py                                                   *)
(* ===================================================================== *)

(** [sum(1 for component in project.components if ... == component_type)] *)
Definition count_components_by_type (p : VB6Project) (ty : string) : nat :=
  length (filter (λ component : Obj, component_type component = ty) (objects p)).

(** [any(component.name in other.dependencies
         for other in project.components if other != component)] *)
Definition has_dependents (p : VB6Project) (component : Obj) : bool :=
  existsb (λ other : Obj, bool_decide (name component ∈ dependencies other))
          (filter (λ other : Obj, addr other ≠ addr component) (objects p)).

(** [[other for other in project.components
            if component.name in other.dependencies]] *)
Definition get_dependents (p : VB6Project) (component : Obj) : list Obj :=
  filter (λ other : Obj, name component ∈ dependencies other) (objects p).

(* ===================================================================== *)
(** ** parsers/vbp_parser.py                                              *)
(* ===================================================================== *)

(** Logging has no effect on the project and is left out. *)

(** [f"{component_name}_{counter}"] *)
Definition suffixed (component_name : string) (counter : nat) : string :=
  component_name +:+ "_" +:+ pretty counter.

(** [while project.find_component_by_name(f"{component_name}_{counter}"):
        counter += 1]
    The loop is cut after [fuel] tests; [free_counter_spec] shows that with
    the fuel [add_component_from_line] gives it, it leaves as the source's
    loop does, at the first counter whose name is not found. *)
Fixpoint free_counter (fuel : nat) (p : VB6Project) (component_name : string)
    (counter : nat) : nat :=
  match fuel with
  | O => counter
  | S fuel' =>
      match find_component_by_name p (suffixed component_name counter) with
      | Some _ => free_counter fuel' p component_name (S counter)
      | None => counter
      end
  end.

(** [for part in parts[1:]: if '=' in part: ...; break] with the name
    derived from the file name as the default. *)
Fixpoint name_from_parts (parts : list string) (component_name : string) : string :=
  match parts with
  | [] => component_name
  | part :: rest =>
      match split_once "=" part with
      | Some (key, value) =>
          if decide (strip key = "") then unquote (strip value)
          else name_from_parts rest component_name
      | None => name_from_parts rest component_name
      end
  end.

(** The name [add_component_from_line] registers, given the name the line
    carries. *)
Definition unique_name (p : VB6Project) (component_name : string) : string :=
  match find_component_by_name p component_name with
  | Some _ =>
      let counter := free_counter (S (length (components p))) p component_name 1 in
      suffixed component_name counter
  | None => component_name
  end.

Definition add_component_from_line (rt : PyRuntime) (p : VB6Project)
    (file_info component_type_ : string) : VB6Project * bool :=
  match split ";" file_info with
  | part0 :: parts =>
      let filename_ := strip part0 in
      let component_name :=
        name_from_parts parts
          (fst (os_path_splitext rt (os_path_basename rt filename_))) in
      (add_component p (unique_name p component_name) filename_ component_type_, true)
  | [] => (p, false)
  end.

(** The file name and the component name a manifest entry carries. *)
Definition line_filename (file_info : string) : string :=
  strip (hd EmptyString (split ";" file_info)).

Definition line_name (rt : PyRuntime) (file_info : string) : string :=
  name_from_parts (tail (split ";" file_info))
    (fst (os_path_splitext rt (os_path_basename rt (line_filename file_info)))).

Definition set_name (p : VB6Project) (nm : string) : VB6Project :=
  mkProject nm (proj_path p) (proj_filename p) (components p).

(** The component keys of a manifest, in the order the parser tests them. *)
Definition component_keys : list string :=
  ["Form"; "Module"; "Class"; "UserControl"; "PropertyPage"; "Designer"].

Fixpoint dispatch (rt : PyRuntime) (keys : list string) (p : VB6Project)
    (line : string) : VB6Project :=
  match keys with
  | [] => p
  | key :: keys' =>
      let tag := key +:+ "=" in
      if startswith line tag
      then fst (add_component_from_line rt p (drop_chars (String.length tag) line) key)
      else dispatch rt keys' p line
  end.

(** The body of [for line in file]. *)
Definition process_line (rt : PyRuntime) (p : VB6Project) (raw : string) : VB6Project :=
  let line := strip raw in
  if decide (line = "") then p
  else if startswith line "Name=" then set_name p (unquote (strip (drop_chars 5 line)))
  else dispatch rt component_keys p line.

Definition parse_vbp_file (rt : PyRuntime) (vbp_file_path : string) : option VB6Project :=
  let project :=
    mkProject "" (os_path_dirname rt vbp_file_path) (os_path_basename rt vbp_file_path) [] in
  match fs_read rt vbp_file_path with
  | None => None
  | Some text => Some (foldl (process_line rt) project (splitlines text))
  end.

(** Names pairwise distinct under the comparison of
    [find_component_by_name]. *)
Definition lower_names (p : VB6Project) : list string :=
  (λ c, lower (name c)) <$> components p.

Definition distinct_names (p : VB6Project) : Prop := NoDup (lower_names p).

(* ===================================================================== *)
(** ** generators/json_generator.py                                       *)
(* ===================================================================== *)

Record ComponentEntry := mkEntry {
  e_name : string;
  e_type : string;
  e_filename : string;
  e_dependencies : list string;
  e_dependents : list string;
  e_dependency_count : nat;
  e_dependent_count : nat
}.

Record Statistics := mkStatistics {
  total_components : nat;
  forms : nat;
  modules : nat;
  classes : nat;
  user_controls : nat;
  property_pages : nat;
  designers : nat
}.

Record ExportData := mkExport {
  x_project : string * string * string;
  x_components : list ComponentEntry;
  x_statistics : Statistics
}.

(** The body of [for comp in project.components] in [export_json]. *)
Definition component_entry (rt : PyRuntime) (p : VB6Project) (comp : Obj) : ComponentEntry :=
  let dependents := (λ dep : Obj, name dep) <$> get_dependents p comp in
  mkEntry (name comp) (component_type comp) (filename comp)
          (items (str_set rt) (dependencies comp))
          dependents
          (length (items (str_set rt) (dependencies comp)))
          (length dependents).

Definition export_data (rt : PyRuntime) (p : VB6Project) : ExportData :=
  mkExport (proj_name p, proj_path p, proj_filename p)
           (component_entry rt p <$> objects p)
           (mkStatistics (length (components p))
              (count_components_by_type p "Form")
              (count_components_by_type p "Module")
              (count_components_by_type p "Class")
              (count_components_by_type p "UserControl")
              (count_components_by_type p "PropertyPage")
              (count_components_by_type p "Designer")).

(** [needle in s] *)
Definition contains (s needle : string) : bool :=
  bool_decide (is_Some (String.index 0 needle s)).

(** [export_json]: the document handed to [json.dump], or [None] where the
    function returns [False] (the simulated failure of the test mode, or an
    output file that cannot be written). *)
Definition export_json (rt : PyRuntime) (p : VB6Project) (output_file : string)
    (test_mode : bool) : option ExportData :=
  if test_mode && contains output_file "CON" then None
  else if fs_can_write rt output_file then Some (export_data rt p)
  else None.

(** The per-component [dependencies] lists of a document. *)
Definition dependencies_lists (d : ExportData) : list (list string) :=
  e_dependencies <$> x_components d.

(** Two entries that agree in every field, the [dependencies] up to their
    order; each name is listed once. *)
Definition same_up_to_order (e1 e2 : ComponentEntry) : Prop :=
  e_name e1 = e_name e2 ∧ e_type e1 = e_type e2 ∧ e_filename e1 = e_filename e2
  ∧ e_dependencies e1 ≡ₚ e_dependencies e2
  ∧ NoDup (e_dependencies e1) ∧ NoDup (e_dependencies e2)
  ∧ e_dependents e1 = e_dependents e2
  ∧ e_dependency_count e1 = e_dependency_count e2
  ∧ e_dependent_count e1 = e_dependent_count e2.

(* ===================================================================== *)
(** ** generators/diagrams                                                *)
(* ===================================================================== *)

(** What a builder writes to [f], line by line.  [NodeLine id label cls]
    stands for [    id["label"]] followed by [:::cls] when [cls] is given,
    [EdgeLine s t] for [    s --> t]. *)
Inductive Line :=
| Header
| NodeLine (node_id label : string) (node_class : option string)
| EdgeLine (source_id target_id : string)
| Styles.

Global Instance Line_eq_dec : EqDecision Line.
Proof. solve_decision. Defined.

Definition edges_of (out : list Line) : list (string * string) :=
  omap (λ ln, match ln with EdgeLine s t => Some (s, t) | _ => None end) out.

Definition node_ids_of (out : list Line) : list string :=
  omap (λ ln, match ln with NodeLine i _ _ => Some i | _ => None end) out.

(** [html.escape(s)] followed by the two [replace] calls; the second one
    finds no double quote left to replace. *)
Definition escape_char (a : ascii) : string :=
  if decide (a = "&"%char) then "&amp;"
  else if decide (a = "<"%char) then "&lt;"
  else if decide (a = ">"%char) then "&gt;"
  else if decide (a = "034"%char) then "&quot;"
  else if decide (a = "'"%char) then "&#x27;"
  else if decide (a = "\"%char) then "\\"
  else String a EmptyString.

Fixpoint safe_name (s : string) : string :=
  match s with
  | EmptyString => EmptyString
  | String a s' => escape_char a +:+ safe_name s'
  end.

(** [enumerate(l)] *)
Definition enumerate {A} (l : list A) : list (nat * A) := imap pair l.

(** [list.sort(key=key, reverse=True)].  Python's sort is stable, also
    when reversed: elements with equal keys keep their order.  [x] stood
    before every element of [l]; it goes behind the larger keys only. *)
Fixpoint insert_desc {A} (key : A → nat) (x : A) (l : list A) : list A :=
  match l with
  | [] => [x]
  | y :: l' => if decide (key x < key y) then y :: insert_desc key x l' else x :: l
  end.

Definition sort_desc {A} (key : A → nat) (l : list A) : list A :=
  foldr (insert_desc key) [] l.

(** The order such a sort produces when [pos] numbers the elements as they
    stood before it: larger keys first, and among equal keys the element
    that stood first. *)
Definition outranks {A} (key pos : A → nat) (a b : A) : Prop :=
  key b < key a ∨ (key a = key b ∧ pos a < pos b).

(** The state of an edge loop: [edges_added] and the lines written. *)
Definition EdgeState : Type := gset string * list Line.

(** [f"{source_id}->{target_id}"] *)
Definition edge_key (source_id target_id : string) : string :=
  source_id +:+ "->" +:+ target_id.

(** The body of [for dep in set(component.dependencies)], shared by the
    builders up to the test [accept] on the component found. *)
Definition add_edge (p : VB6Project) (node_ids : gmap string string)
    (accept : Obj → bool) (source_id : string) (st : EdgeState) (dep : string) : EdgeState :=
  match find_component_by_name p dep with
  | Some dep_comp =>
      if accept dep_comp then
        match node_ids !! name dep_comp with
        | Some target_id =>
            if decide (edge_key source_id target_id ∈ st.1) then st
            else (st.1 ∪ {[edge_key source_id target_id]},
                  st.2 ++ [EdgeLine source_id target_id])
        | None => st
        end
      else st
  | None => st
  end.

(** The body of [for component in ...: if component.name in node_ids: ...] *)
Definition add_edges_from (rt : PyRuntime) (p : VB6Project)
    (node_ids : gmap string string) (accept : Obj → bool)
    (st : EdgeState) (component : Obj) : EdgeState :=
  match node_ids !! name component with
  | Some source_id =>
      foldl (add_edge p node_ids accept source_id) st
            (items (str_set rt) (dependencies component))
  | None => st
  end.

(** What an edge loop maintains: no pair written twice, every pair written
    has its key in [edges_added], and every pair written satisfies [P]. *)
Definition edge_inv (P : string → string → Prop) (st : EdgeState) : Prop :=
  NoDup (edges_of st.2)
  ∧ node_ids_of st.2 = []
  ∧ ∀ s t, (s, t) ∈ edges_of st.2 → edge_key s t ∈ st.1 ∧ P s t.

(** The state of a node loop: [node_ids] and the lines written. *)
Definition NodeState : Type := gmap string string * list Line.

(** The body of [for i, component in enumerate(...)] in the loops that
    give every component a node: [node_ids[component.name] = node_id] and
    one line written. *)
Definition add_node (pre : string) (node_class : Obj → option string)
    (st : NodeState) (ic : nat * Obj) : NodeState :=
  let node_id := fmt_id pre ic.1 in
  (<[name ic.2 := node_id]> st.1,
   st.2 ++ [NodeLine node_id (safe_name (name ic.2)) (node_class ic.2)]).

(** *** core_diagram.py *)

Definition MAX_COMPONENTS : nat := 20.

(** [total_connections] *)
Definition connectivity (rt : PyRuntime) (p : VB6Project) (comp : Obj) : nat :=
  length (get_dependents p comp) + length (items (str_set rt) (dependencies comp)).

Definition component_connections (rt : PyRuntime) (p : VB6Project) : list (Obj * nat) :=
  (λ comp, (comp, connectivity rt p comp)) <$> objects p.

(** [[comp for comp, _ in component_connections[:k]]] after the sort. *)
Definition top_connected (k : nat) (conns : list (Obj * nat)) : list Obj :=
  fst <$> take k (sort_desc snd conns).

Definition components_to_render (rt : PyRuntime) (p : VB6Project) : list Obj :=
  top_connected MAX_COMPONENTS (component_connections rt p).

Definition core_node_class (component : Obj) : string :=
  if decide (lower (component_type component) = "class") then "cls"
  else lower (component_type component).

Definition core_nodes (comps : list Obj) : NodeState :=
  foldl (add_node "core" (λ component, Some (core_node_class component)))
        (∅, []) (enumerate comps).

Definition core_edges (rt : PyRuntime) (p : VB6Project) (comps : list Obj) : list Line :=
  (foldl (add_edges_from rt p (core_nodes comps).1 (λ _, true)) (∅, []) comps).2.

Definition generate_core_architecture_diagram (rt : PyRuntime) (p : VB6Project) : list Line :=
  let comps := components_to_render rt p in
  [Header] ++ (core_nodes comps).2 ++ core_edges rt p comps ++ [Styles].

(** *** form_diagram.py *)

Definition form_objects (p : VB6Project) : list Obj :=
  filter (λ comp : Obj, component_type comp = "Form") (objects p).

Definition form_nodes (p : VB6Project) : NodeState :=
  foldl (add_node "form" (λ _, None)) (∅, []) (enumerate (form_objects p)).

Definition form_edges (rt : PyRuntime) (p : VB6Project) : list Line :=
  (foldl (add_edges_from rt p (form_nodes p).1
            (λ dep_comp, bool_decide (component_type dep_comp = "Form")))
         (∅, []) (form_objects p)).2.

Definition generate_form_relationships_diagram (rt : PyRuntime) (p : VB6Project) : list Line :=
  [Header] ++ (form_nodes p).2 ++ form_edges rt p ++ [Styles].

(** *** class_diagram.py *)

Definition class_objects (p : VB6Project) : list Obj :=
  filter (λ comp : Obj, component_type comp = "Class") (objects p).

Definition class_nodes (p : VB6Project) : NodeState :=
  foldl (add_node "class" (λ _, None)) (∅, []) (enumerate (class_objects p)).

(** The objects [related_components.add] receives for one class, in the
    order of the calls. *)
Definition related_of (rt : PyRuntime) (p : VB6Project) (cls : Obj) : list Obj :=
  omap (λ dep,
          match find_component_by_name p dep with
          | Some dep_comp =>
              if decide (component_type dep_comp ≠ "Class") then Some dep_comp else None
          | None => None
          end)
       (items (str_set rt) (dependencies cls))
  ++ filter (λ comp : Obj, component_type comp ≠ "Class" ∧ name cls ∈ dependencies comp)
            (objects p).

(** [related_components], as the two loops over it see it. *)
Definition related_components (rt : PyRuntime) (p : VB6Project) : list Obj :=
  items (obj_set rt) (class_objects p ≫= related_of rt p).

Definition related_node_class (comp : Obj) : string :=
  if decide (component_type comp = "Class") then "cls"
  else lower (component_type comp).

Definition related_node (st : NodeState) (ic : nat * Obj) : NodeState :=
  match st.1 !! name ic.2 with
  | None =>
      let node_id := fmt_id "related" ic.1 in
      (<[name ic.2 := node_id]> st.1,
       st.2 ++ [NodeLine node_id (safe_name (name ic.2)) (Some (related_node_class ic.2))])
  | Some _ => st
  end.

(** Both node loops: the lines of the second follow those of the first. *)
Definition business_nodes (rt : PyRuntime) (p : VB6Project) : NodeState :=
  foldl related_node (class_nodes p) (enumerate (related_components rt p)).

Definition business_edges (rt : PyRuntime) (p : VB6Project) : list Line :=
  let node_ids := (business_nodes rt p).1 in
  let st1 := foldl (add_edges_from rt p node_ids (λ _, true)) (∅, []) (class_objects p) in
  (foldl (add_edges_from rt p node_ids
            (λ dep_comp, bool_decide (component_type dep_comp = "Class")))
         st1 (related_components rt p)).2.

Definition generate_business_logic_diagram (rt : PyRuntime) (p : VB6Project) : list Line :=
  [Header] ++ (business_nodes rt p).2 ++ business_edges rt p ++ [Styles].

(** The identifiers of the primary nodes, the classes, and of the
    secondary nodes, the related components that were given a node. *)
Definition is_primary (p : VB6Project) (node_id : string) : Prop :=
  ∃ i (c : Obj),
    class_objects p !! i = Some c ∧ component_type c = "Class"
    ∧ node_id = fmt_id "class" i.

Definition secondary_in (rt : PyRuntime) (p : VB6Project) (out : list Line)
    (node_id : string) : Prop :=
  ∃ i (c : Obj),
    related_components rt p !! i = Some c ∧ component_type c ≠ "Class"
    ∧ node_id = fmt_id "related" i
    ∧ NodeLine node_id (safe_name (name c)) (Some (related_node_class c)) ∈ out.

Definition is_secondary (rt : PyRuntime) (p : VB6Project) (node_id : string) : Prop :=
  secondary_in rt p (business_nodes rt p).2 node_id.

(* ===================================================================== *)
(** ** analyzers/dependency_analyzer.py                                   *)
(* ===================================================================== *)

(** The analyzer module is imported by [main.py] and by the tests, but its
    text is not part of the sources at hand.  Its definitions below follow
    the specification of the reference scanner (section 4.1). *)

Module Scanner.

(** Modelled from the spec: the candidate occurrences the lexical pass
    of the missing scanner yields. *)
Inductive Token :=
| TIdent (w : string)
| TDot
| TSpace
| TOther (a : ascii).

(** Modelled from the spec: the characters of a whole identifier
    (letters, digits and the underscore); the scanner is missing. *)
Definition is_ident_char (a : ascii) : bool :=
  let n := N_of_ascii a in
  (((48 <=? n) && (n <=? 57)) || ((65 <=? n) && (n <=? 90))
   || ((97 <=? n) && (n <=? 122)) || (n =? 95))%N.

(** Modelled from the spec: the lexical pass; identifiers are maximal
    runs, so a name is never matched inside a longer identifier.  The
    scanner is missing. *)
Fixpoint tokens (s : string) : list Token :=
  match s with
  | EmptyString => []
  | String a s' =>
      if is_ident_char a then
        match tokens s' with
        | TIdent w :: r => TIdent (String a w) :: r
        | r => TIdent (String a EmptyString) :: r
        end
      else if decide (a = "."%char) then TDot :: tokens s'
      else if isspace a then
        match tokens s' with
        | TSpace :: r => TSpace :: r
        | r => TSpace :: r
        end
      else TOther a :: tokens s'
  end.

(** Modelled from the spec: a token that is the whole identifier [w];
    the scanner is missing. *)
Definition is_ident (w : string) (t : Token) : bool :=
  match t with TIdent w' => bool_decide (w' = w) | _ => false end.

(** Modelled from the spec: shape 1 of the missing scanner,
    [<Name>.<anything>]. *)
Fixpoint dotted (n : string) (ts : list Token) : bool :=
  match ts with
  | [] => false
  | t :: r =>
      (is_ident n t && match r with TDot :: _ => true | _ => false end)
      || dotted n r
  end.

(** Modelled from the spec: [kw <Name>] at the head of a token list, for
    the shapes of the missing scanner that start with a keyword. *)
Definition keyword_name (kw n : string) (t : Token) (r : list Token) : bool :=
  is_ident kw t
  && match r with TSpace :: t' :: _ => is_ident n t' | _ => false end.

(** Modelled from the spec: shape 2 of the missing scanner, [New <Name>]
    after a [Dim] or [Set] of the same line. *)
Fixpoint instantiated (n : string) (seen : bool) (ts : list Token) : bool :=
  match ts with
  | [] => false
  | t :: r =>
      (seen && keyword_name "new" n t r)
      || instantiated n (seen || is_ident "dim" t || is_ident "set" t) r
  end.

(** Modelled from the spec: shape 3 of the missing scanner, [As <Name>]. *)
Fixpoint declared (n : string) (ts : list Token) : bool :=
  match ts with
  | [] => false
  | t :: r => keyword_name "as" n t r || declared n r
  end.

(** Modelled from the spec: the matching of the missing scanner; a name
    is referenced when some line matches it under one of the three
    shapes, letter case apart. *)
Definition references (text n : string) : bool :=
  existsb (λ line,
             let ts := tokens (lower line) in
             dotted (lower n) ts || instantiated (lower n) false ts
             || declared (lower n) ts)
          (splitlines text).

(** Modelled from the spec: the ordered, duplicate-rejecting sequence the
    missing scanner keeps the dependencies in. *)
Definition dedup (l : list string) : list string :=
  foldl (λ acc n, if decide (n ∈ acc) then acc else acc ++ [n]) [] l.

(** Modelled from the spec: [N] of the missing scanner, the names of the
    project without the component's own. *)
Definition other_names (p : VB6Project) (c : Obj) : list string :=
  filter (λ n, n ≠ name c) (name <$> components p).

(** Modelled from the spec: the scan of one component by the missing
    scanner; an unreadable file leaves no dependencies and no content. *)
Definition scan_component (rt : PyRuntime) (p : VB6Project) (c : Obj) : VB6Component :=
  match fs_read rt (filename c) with
  | None => mkComponent (name c) (filename c) (component_type c) [] ""
  | Some text =>
      mkComponent (name c) (filename c) (component_type c)
                  (dedup (filter (λ n, references text n) (other_names p c)))
                  text
  end.

(** Modelled from the spec: [scan(project)], the missing
    [analyze_dependencies]; one pass over the registry. *)
Definition analyze_dependencies (rt : PyRuntime) (p : VB6Project) : VB6Project :=
  mkProject (proj_name p) (proj_path p) (proj_filename p)
            (scan_component rt p <$> objects p).

End Scanner.

(* ===================================================================== *)
(** ** html.escape and the labels of the diagrams                         *)
(* ===================================================================== *)

(** [s.replace(old, new)] for a one-character [old]. *)
Fixpoint replace_char (old : ascii) (new : string) (s : string) : string :=
  match s with
  | EmptyString => EmptyString
  | String a s' =>
      (if decide (a = old) then new else String a EmptyString)
      +:+ replace_char old new s'
  end.

(** [html.escape(s)], with its default [quote=True], as the standard
    library defines it: five replacements in a row, the ampersand first. *)
Definition html_escape (s : string) : string :=
  replace_char "'" "&#x27;"
    (replace_char "034" "&quot;"
       (replace_char ">" "&gt;"
          (replace_char "<" "&lt;"
             (replace_char "&" "&amp;" s)))).

(** The expression the three builders compute their labels with:
    [html.escape(name).replace('\\', '\\\\').replace('"', '\\"')]. *)
Definition mermaid_label (nm : string) : string :=
  replace_char "034" (String "\" (String "034" EmptyString))
    (replace_char "\" "\\" (html_escape nm)).

(* ===================================================================== *)
(** ** sorted                                                             *)
(* ===================================================================== *)

(** [sorted(l, key=key)] with [str] keys: ascending by code points and
    stable.  [x] stood before every element of [l]; it goes behind the
    smaller keys only. *)
Fixpoint insert_asc {A} (key : A → string) (x : A) (l : list A) : list A :=
  match l with
  | [] => [x]
  | y :: l' =>
      if decide (String.le (key x) (key y)) then x :: l
      else y :: insert_asc key x l'
  end.

Definition sorted {A} (key : A → string) (l : list A) : list A :=
  foldr (insert_asc key) [] l.

(* ===================================================================== *)
(** ** generators/html_generator.py                                       *)
(* ===================================================================== *)

(** The rows of [write_project_summary]: label and count. *)
Definition project_summary (p : VB6Project) : list (string * nat) :=
  [("Forms", count_components_by_type p "Form");
   ("Modules", count_components_by_type p "Module");
   ("Classes", count_components_by_type p "Class");
   ("User Controls", count_components_by_type p "UserControl");
   ("Property Pages", count_components_by_type p "PropertyPage");
   ("Designers", count_components_by_type p "Designer");
   ("Total", length (components p))].

(** [sorted(set(component.dependencies))], escaped: the items of the
    dependency list of [write_component_details] and the entries of the
    dependency cell of [write_dependency_table]. *)
Definition listed_dependencies (rt : PyRuntime) (component : Obj) : list string :=
  html_escape <$> sorted id (items (str_set rt) (dependencies component)).

(** [sorted(dependents, key=lambda x: x.name)], escaped names. *)
Definition listed_dependents (p : VB6Project) (component : Obj) : list string :=
  (λ dep : Obj, html_escape (name dep))
    <$> sorted (λ x : Obj, name x) (get_dependents p component).

(** [", ".join(...)] *)
Definition join (sep : string) (l : list string) : string := String.concat sep l.

(** The two list cells of a table row; an empty list is truthless and
    gives [None]. *)
Definition dependencies_cell (rt : PyRuntime) (component : Obj) : string :=
  match dependencies component with
  | [] => "None"
  | _ => join ", " (listed_dependencies rt component)
  end.

Definition referenced_by_cell (p : VB6Project) (component : Obj) : string :=
  match get_dependents p component with
  | [] => "None"
  | _ => join ", " (listed_dependents p component)
  end.

Record TableRow := mkRow {
  t_component : string;
  t_type : string;
  t_dependencies : string;
  t_referenced_by : string
}.

(** The body rows of [write_dependency_table], one for each
    [component in sorted(project.components, key=lambda x: x.name)]. *)
Definition table_row (rt : PyRuntime) (p : VB6Project) (component : Obj) : TableRow :=
  mkRow (html_escape (name component)) (html_escape (component_type component))
        (dependencies_cell rt component) (referenced_by_cell p component).

Definition dependency_table (rt : PyRuntime) (p : VB6Project) : list TableRow :=
  table_row rt p <$> sorted (λ x : Obj, name x) (objects p).

(** The value the loop of [add_visualization_scripts] stores in the dict
    for one component. *)
Record NodeData := mkNodeData {
  d_type : string;
  d_dependencies : list string;
  d_dependents : list string
}.

Definition node_data (rt : PyRuntime) (p : VB6Project) (comp : Obj) : NodeData :=
  mkNodeData (component_type comp)
             (items (str_set rt) (dependencies comp))
             ((λ dep : Obj, name dep) <$> get_dependents p comp).

(** The dict [project_data["components"]] as the loop of
    [add_visualization_scripts] leaves it (lines 424-436): keyed by the
    component name as it stands, filled in registry order.  It is the dict
    before it becomes text: [json.dumps] and the two [replace] calls that
    follow (lines 440-445) work on the text, where they rewrite every
    [<script>] and [</script>], in keys and in listed names alike; they
    are not part of this definition, and the text handed to the page's
    scripts is not described by it. *)
Definition project_data (rt : PyRuntime) (p : VB6Project) : gmap string NodeData :=
  foldl (λ m (comp : Obj), <[name comp := node_data rt p comp]> m) ∅ (objects p).

(* ===================================================================== *)
(** ** Readings of a manifest line                                        *)
(* ===================================================================== *)

(** The key under which [parse_vbp_file] registers a component for a
    line, if it registers one: the first of the six keys the stripped line
    starts with, unless the line is empty or sets the project name. *)
Definition line_key (raw : string) : option string :=
  let line := strip raw in
  if decide (line = "") then None
  else if startswith line "Name=" then None
  else find (λ key, startswith line (key +:+ "=")) component_keys.

(** The text [parse_vbp_file] hands to [add_component_from_line]. *)
Definition line_info (raw key : string) : string :=
  drop_chars (String.length (key +:+ "=")) (strip raw).

(** The project name a line sets, if it sets one. *)
Definition line_project_name (raw : string) : option string :=
  let line := strip raw in
  if decide (line = "") then None
  else if startswith line "Name=" then Some (unquote (strip (drop_chars 5 line)))
  else None.

(** The characters of a string. *)
Fixpoint chars (s : string) : list ascii :=
  match s with
  | EmptyString => []
  | String a s' => a :: chars s'
  end.

(* ===================================================================== *)
(** ** What the edge loops are to write                                   *)
(* ===================================================================== *)

(** The pairs a loop over [comps] comes across: the node of a component
    and the node of an accepted component that one of its dependencies
    names. *)
Definition wanted_edge (p : VB6Project) (node_ids : gmap string string)
    (accept : Obj → bool) (comps : list Obj) (s t : string) : Prop :=
  ∃ (c : Obj) (dep : string) (dep_comp : Obj),
    c ∈ comps ∧ node_ids !! name c = Some s ∧ dep ∈ dependencies c
    ∧ find_component_by_name p dep = Some dep_comp ∧ accept dep_comp = true
    ∧ node_ids !! name dep_comp = Some t.

(** What an edge loop maintains beyond [edge_inv]: only edge lines are
    written, and [edges_added] holds no key but those of the pairs
    written. *)
Definition edge_log (st : EdgeState) : Prop :=
  st.2 = (λ e, EdgeLine e.1 e.2) <$> edges_of st.2
  ∧ ∀ k, k ∈ st.1 → ∃ s t, (s, t) ∈ edges_of st.2 ∧ k = edge_key s t.

(** [node_ids.get(k)] once a node loop has run over [comps]: the loop
    stores [node_ids[component.name] = f"{pre}{i}"] for every
    [i, component in enumerate(comps)], so a name ends with the identifier
    of the last component that bears it, and a name no component bears has
    no entry. *)
Definition node_id_of (pre : string) (comps : list Obj) (k : string) : option string :=
  (λ ic : nat * Obj, fmt_id pre ic.1)
    <$> last (filter (λ ic : nat * Obj, name ic.2 = k) (enumerate comps)).

(* ===================================================================== *)
(** ** Sample data                                                        *)
(* ===================================================================== *)

Module Samples.

(** Two interpreter runs that iterate their sets in opposite orders. *)
Definition order_fwd (A : Type) `{EqDecision A} : SetOrder A :=
  mkSetOrder A remove_dups (λ l, NoDup_remove_dups l) (λ l x, elem_of_remove_dups l x).

Definition order_rev (A : Type) `{EqDecision A} : SetOrder A.
Proof.
  refine (mkSetOrder A (λ l, reverse (remove_dups l)) _ _).
  - intros l. rewrite reverse_Permutation. apply NoDup_remove_dups.
  - intros l x. rewrite elem_of_reverse. apply elem_of_remove_dups.
Defined.

(** A posix flavour of [os.path], enough for plain relative names. *)
Fixpoint after_last (sep : ascii) (acc s : string) : string :=
  match s with
  | EmptyString => acc
  | String a s' => if decide (a = sep) then after_last sep s' s' else after_last sep acc s'
  end.

Definition basename (s : string) : string := after_last "/" s s.

Definition dirname (s : string) : string :=
  substring 0 (String.length s - String.length (basename s) - 1) s.

Definition splitext (s : string) : string * string :=
  let ext := after_last "." EmptyString s in
  if decide (ext = EmptyString) then (s, EmptyString)
  else (substring 0 (String.length s - String.length ext - 1) s, "." +:+ ext).

Definition lookup_file (files : list (string * string)) (path : string) : option string :=
  snd <$> list_find (λ kv, kv.1 = path) files ≫= λ r, Some r.2.

Definition runtime (order : ∀ A, EqDecision A → SetOrder A)
    (files : list (string * string)) : PyRuntime :=
  mkRuntime (order string _) (order Obj _) basename dirname splitext
            (lookup_file files) (λ _, true).

Definition frmMain : VB6Component :=
  mkComponent "frmMain" "frmMain.frm" "Form" ["frmOptions"; "modUtils"; "clsData"] "".
Definition frmOptions : VB6Component :=
  mkComponent "frmOptions" "frmOptions.frm" "Form" ["modUtils"; "frmMain"] "".
Definition modUtils : VB6Component :=
  mkComponent "modUtils" "modUtils.bas" "Module" ["clsData"] "".
Definition clsData : VB6Component :=
  mkComponent "clsData" "clsData.cls" "Class" [] "".

(** The project of [tests/test_json_generator.py]. *)
Definition test_project : VB6Project :=
  mkProject "TestProject" "/tmp" "TestProject.vbp"
            [frmMain; frmOptions; modUtils; clsData].

Definition run1 : PyRuntime := runtime (@order_fwd) [].
Definition run2 : PyRuntime := runtime (@order_rev) [].

(** A caller that spells the name of [frmMain] in capitals. *)
Definition shouting : VB6Component :=
  mkComponent "modShout" "modShout.bas" "Module" ["FRMMAIN"] "".

Definition shouted : VB6Component :=
  mkComponent "frmMain" "frmMain.frm" "Form" [] "".

Definition case_project : VB6Project :=
  mkProject "CaseProject" "/tmp" "CaseProject.vbp" [shouted; shouting].

Definition nl : string := String "010"%char EmptyString.

(** A manifest whose entries collide, letter case apart. *)
Definition manifest : string :=
  "Type=Exe" +:+ nl +:+
  "Name=Demo" +:+ nl +:+
  "Form=frmMain.frm" +:+ nl +:+
  "Module=modUtils.bas" +:+ nl +:+
  "Form=sub/FRMMAIN.frm" +:+ nl +:+
  "Form=old/frmmain_1.frm" +:+ nl +:+
  "Class=old/frmMain.cls" +:+ nl.

Definition run_parse : PyRuntime := runtime (@order_fwd) [("proj/demo.vbp", manifest)].

(** The project the parser makes of [manifest]. *)
Definition parsed_demo : VB6Project :=
  default new_project (parse_vbp_file run_parse "proj/demo.vbp").

(** A component that lists one target three times, once in capitals. *)
Definition repeating_project : VB6Project :=
  mkProject "Repeating" "/tmp" "Repeating.vbp"
    [mkComponent "frmMain" "frmMain.frm" "Form" ["frmOptions"; "frmOptions"; "FRMOPTIONS"] "";
     mkComponent "frmOptions" "frmOptions.frm" "Form" [] ""].

(** Three components whose scores are 5, 5 and 3: none is referred to, and
    their dependencies name components outside the project. *)
Definition scored (nm : string) (deps : list string) : VB6Component :=
  mkComponent nm (nm +:+ ".bas") "Module" deps "".

Definition ranked_project : VB6Project :=
  mkProject "Ranked" "/tmp" "Ranked.vbp"
    [scored "C" ["x1"; "x2"; "x3"; "x1"];
     scored "A" ["x1"; "x2"; "x3"; "x4"; "x5"];
     scored "B" ["y1"; "y2"; "y3"; "y4"; "y5"; "y5"]].

(** A component that lists its own name and nothing else refers to. *)
Definition narcissus_project : VB6Project :=
  mkProject "Narcissus" "/tmp" "Narcissus.vbp"
    [mkComponent "frmSelf" "frmSelf.frm" "Form" ["frmSelf"] ""].

(** Source files in which a form names itself. *)
Definition sources : list (string * string) :=
  [("frmMain.frm",
    "Private Sub Form_Load()" +:+ nl +:+
    "  frmMain.Caption = 1" +:+ nl +:+
    "  frmOptions.Show" +:+ nl +:+
    "  Dim data As New clsData" +:+ nl +:+
    "End Sub" +:+ nl);
   ("frmOptions.frm",
    "  Dim f As frmMain" +:+ nl +:+
    "  clsDataHelper.Run" +:+ nl)].

Definition run_scan : PyRuntime := runtime (@order_fwd) sources.

Definition unscanned : VB6Project :=
  mkProject "Scan" "/tmp" "Scan.vbp"
    [new_component "frmMain" "frmMain.frm" "Form";
     new_component "frmOptions" "frmOptions.frm" "Form";
     new_component "clsData" "clsData.cls" "Class"].

End Samples.

(* ===================================================================== *)
(** * Properties                                                          *)
(* ===================================================================== *)

Example lower_example : lower "FrmMain_1" = "frmmain_1".
Proof. reflexivity. Qed.

Example fmt_id_example : fmt_id "core" 12 = "core12".
Proof. vm_compute. reflexivity. Qed.

(** ** The registry as a store of objects *)

Section Registry.

Implicit Types (p : VB6Project) (o c : Obj).

Lemma elem_of_objects p o :
  o ∈ objects p ↔ components p !! addr o = Some (state o).
Proof.
  unfold objects. rewrite elem_of_lookup_imap. split.
  - intros (i & y & -> & Hy). done.
  - intros H. exists (addr o), (state o). by destruct o.
Qed.

(** One address, one object. *)
Lemma objects_addr_inj p o1 o2 :
  o1 ∈ objects p → o2 ∈ objects p → addr o1 = addr o2 → o1 = o2.
Proof.
  rewrite !elem_of_objects. intros H1 H2 Ha. rewrite Ha in H1.
  destruct o1, o2; simpl in *. simplify_eq. done.
Qed.

Lemma elem_of_get_dependents p c o :
  o ∈ get_dependents p c ↔ o ∈ objects p ∧ name c ∈ dependencies o.
Proof. unfold get_dependents. rewrite list_elem_of_filter. tauto. Qed.

Lemma has_dependents_true p c :
  has_dependents p c = true ↔
  ∃ other, other ∈ objects p ∧ addr other ≠ addr c ∧ name c ∈ dependencies other.
Proof.
  unfold has_dependents. rewrite existsb_exists. split.
  - intros (o & Ho & Hd). apply list_elem_of_In in Ho.
    apply list_elem_of_filter in Ho as [Ha Ho].
    apply bool_decide_eq_true in Hd. by exists o.
  - intros (o & Ho & Ha & Hd). exists o. split.
    + apply list_elem_of_In, list_elem_of_filter. done.
    + by apply bool_decide_eq_true.
Qed.

Lemma get_dependents_nonempty p c :
  get_dependents p c ≠ [] ↔ ∃ other, other ∈ get_dependents p c.
Proof.
  destruct (get_dependents p c) as [|o l]; split.
  - done.
  - intros (o & Ho). by apply not_elem_of_nil in Ho.
  - intros _. exists o. left.
  - done.
Qed.

End Registry.

Example get_dependents_example :
  name <$> (state <$> get_dependents Samples.test_project (mkObj 3 Samples.clsData))
  = ["frmMain"; "modUtils"].
Proof. vm_compute. reflexivity. Qed.

(** C1. Dependents/dependency duality: for components [A] and [B] of a
    project, [B] is among [get_dependents project A] exactly when the
    string [A.name] is a member of [B.dependencies]. *)
Theorem dependents_duality (p : VB6Project) (A B : Obj) :
  A ∈ objects p → B ∈ objects p →
  (B ∈ get_dependents p A ↔ name A ∈ dependencies B).
Proof.
  intros _ HB. rewrite elem_of_get_dependents. tauto.
Qed.

Lemma dependents_duality_witness :
  (mkObj 3 Samples.clsData ∈ objects Samples.test_project)
  ∧ (mkObj 2 Samples.modUtils ∈ objects Samples.test_project)
  ∧ (mkObj 2 Samples.modUtils ∈ get_dependents Samples.test_project (mkObj 3 Samples.clsData)
     ↔ "clsData" ∈ dependencies Samples.modUtils).
Proof.
  assert (H3 : mkObj 3 Samples.clsData ∈ objects Samples.test_project)
    by (apply elem_of_objects; reflexivity).
  assert (H2 : mkObj 2 Samples.modUtils ∈ objects Samples.test_project)
    by (apply elem_of_objects; reflexivity).
  split; [exact H3|]. split; [exact H2|].
  exact (dependents_duality Samples.test_project _ _ H3 H2).
Defined.

(** Without the premise of the next theorem the two queries part: the
    component itself is skipped by [has_dependents] only. *)
Example has_dependents_skips_self :
  has_dependents Samples.narcissus_project
    (mkObj 0 (mkComponent "frmSelf" "frmSelf.frm" "Form" ["frmSelf"] "")) = false
  ∧ length (get_dependents Samples.narcissus_project
              (mkObj 0 (mkComponent "frmSelf" "frmSelf.frm" "Form" ["frmSelf"] ""))) = 1.
Proof. split; vm_compute; reflexivity. Qed.

(** C9. For a component [c] of a project that does not list its own name,
    [has_dependents project c] is true exactly when
    [get_dependents project c] is not empty. *)
Theorem has_dependents_iff_get_dependents (p : VB6Project) (c : Obj) :
  c ∈ objects p → name c ∉ dependencies c →
  (has_dependents p c = true ↔ get_dependents p c ≠ []).
Proof.
  intros Hc Hself. rewrite has_dependents_true, get_dependents_nonempty. split.
  - intros (o & Ho & _ & Hd). exists o. by apply elem_of_get_dependents.
  - intros (o & Ho). apply elem_of_get_dependents in Ho as [Ho Hd].
    exists o. split; [done|]. split; [|done].
    intros Ha. apply Hself.
    by rewrite (objects_addr_inj p o c Ho Hc Ha) in Hd.
Qed.

Lemma has_dependents_iff_get_dependents_witness :
  (mkObj 3 Samples.clsData ∈ objects Samples.test_project)
  ∧ (name Samples.clsData ∉ dependencies Samples.clsData)
  ∧ (has_dependents Samples.test_project (mkObj 3 Samples.clsData) = true
     ↔ get_dependents Samples.test_project (mkObj 3 Samples.clsData) ≠ []).
Proof.
  assert (H3 : mkObj 3 Samples.clsData ∈ objects Samples.test_project)
    by (apply elem_of_objects; reflexivity).
  assert (Hn : name Samples.clsData ∉ dependencies Samples.clsData)
    by apply not_elem_of_nil.
  split; [exact H3|]. split; [exact Hn|].
  exact (has_dependents_iff_get_dependents Samples.test_project _ H3 Hn).
Defined.

(** ** The registry keeps names apart *)

Section Names.

Implicit Types (p : VB6Project) (o : Obj) (nm : string).

Lemma lower_app (s1 s2 : string) : lower (s1 +:+ s2) = lower s1 +:+ lower s2.
Proof. induction s1 as [|a s1 IH]; simpl; [done|]. by rewrite IH. Qed.

Lemma lower_char_digit (x : N) : lower_char (pretty_N_char x) = pretty_N_char x.
Proof.
  unfold pretty_N_char.
  repeat (match goal with |- context [match ?y with _ => _ end] => destruct y end;
          try reflexivity).
Qed.

Lemma lower_pretty_N_go (x : N) (s : string) :
  lower s = s → lower (pretty_N_go x s) = pretty_N_go x s.
Proof.
  revert s. induction (N.lt_wf_0 x) as [x _ IH]. intros s Hs.
  destruct (decide (x = 0)%N) as [->|Hx].
  - by rewrite pretty_N_go_0.
  - rewrite pretty_N_go_step by lia. apply IH.
    + apply N.div_lt; lia.
    + simpl. by rewrite lower_char_digit, Hs.
Qed.

(** Decimal numerals have no letters to fold. *)
Lemma lower_pretty (n : nat) : lower (pretty n) = pretty n.
Proof.
  unfold pretty, pretty_nat, pretty, pretty_N.
  case_decide; [done|]. by apply lower_pretty_N_go.
Qed.

Lemma lower_suffixed nm (k : nat) :
  lower (suffixed nm k) = lower nm +:+ "_" +:+ pretty k.
Proof. unfold suffixed. by rewrite !lower_app, lower_pretty. Qed.

Lemma lower_suffixed_inj nm (j k : nat) :
  lower (suffixed nm j) = lower (suffixed nm k) → j = k.
Proof.
  rewrite !lower_suffixed. intros H.
  apply (inj (String.app _)) in H. apply (inj (String.app _)) in H.
  by apply (inj pretty) in H.
Qed.

Lemma find_in_None (objs : list Obj) nm :
  find_in objs nm = None ↔ ∀ o, o ∈ objs → lower (name o) ≠ lower nm.
Proof.
  induction objs as [|o objs IH]; simpl.
  - split; [|done]. intros _ o Ho. by apply not_elem_of_nil in Ho.
  - case_decide as He.
    + split; [done|]. intros H. destruct (H o); [left|done].
    + rewrite IH. split.
      * intros H o' [->|Ho']%elem_of_cons; auto.
      * intros H o' Ho'. apply H. by right.
Qed.

Lemma find_in_Some (objs : list Obj) nm o :
  find_in objs nm = Some o → o ∈ objs ∧ lower (name o) = lower nm.
Proof.
  induction objs as [|o' objs IH]; simpl; [done|].
  case_decide as He.
  - intros [= <-]. split; [left|done].
  - intros [Ho Hn]%IH. split; [by right|done].
Qed.

Lemma lower_names_objects p s :
  s ∈ lower_names p ↔ ∃ o, o ∈ objects p ∧ lower (name o) = s.
Proof.
  unfold lower_names. rewrite list_elem_of_fmap. split.
  - intros (c & -> & Hc). apply list_elem_of_lookup in Hc as [i Hi].
    exists (mkObj i c). split; [|done]. by apply elem_of_objects.
  - intros (o & Ho & <-). exists (state o). split; [done|].
    apply elem_of_objects in Ho. by eapply list_elem_of_lookup_2.
Qed.

Lemma find_component_None p nm :
  find_component_by_name p nm = None ↔ lower nm ∉ lower_names p.
Proof.
  unfold find_component_by_name. rewrite find_in_None, lower_names_objects.
  split.
  - intros H (o & Ho & Hn). by apply (H o).
  - intros H o Ho Hn. apply H. by exists o.
Qed.

Lemma find_component_Some p nm o :
  find_component_by_name p nm = Some o → o ∈ objects p ∧ lower (name o) = lower nm.
Proof. apply find_in_Some. Qed.

(** The loop, started at [start] with [fuel] tests left, stops at the
    first free counter when there is one within reach. *)
Lemma free_counter_first (fuel : nat) p nm (start free : nat) :
  start ≤ free < start + fuel →
  find_component_by_name p (suffixed nm free) = None →
  let k := free_counter fuel p nm start in
  start ≤ k ≤ free
  ∧ find_component_by_name p (suffixed nm k) = None
  ∧ ∀ j, start ≤ j < k → is_Some (find_component_by_name p (suffixed nm j)).
Proof.
  revert start. induction fuel as [|fuel IH]; intros start Hr Hfree; [lia|].
  simpl. destruct (find_component_by_name p (suffixed nm start)) as [o|] eqn:Hs.
  - assert (start ≠ free) by (intros ->; congruence).
    destruct (IH (S start)) as (Hk & Hn & Hj); [lia|done|].
    split; [lia|]. split; [done|].
    intros j Hjr. destruct (decide (j = start)) as [->|]; [by rewrite Hs|].
    apply Hj. lia.
  - split; [lia|]. split; [done|]. intros j ?. lia.
Qed.

(** Among [length (components p) + 1] suffixed names one is free. *)
Lemma free_counter_exists p nm :
  ∃ free, 1 ≤ free < 1 + S (length (components p))
          ∧ find_component_by_name p (suffixed nm free) = None.
Proof.
  set (n := length (components p)).
  set (cand := (λ j, lower (suffixed nm j)) <$> seq 1 (S n)).
  destruct (decide (Forall (λ s, s ∈ lower_names p) cand)) as [Hall|Hnot].
  - exfalso.
    assert (NoDup cand) as Hnd.
    { apply NoDup_fmap_2_strong; [|apply NoDup_seq].
      intros j k _ _. apply lower_suffixed_inj. }
    assert (cand ⊆+ lower_names p) as Hsub.
    { apply NoDup_submseteq; [done|]. by apply Forall_forall. }
    apply submseteq_length in Hsub.
    unfold cand, lower_names in Hsub. rewrite !length_fmap, length_seq in Hsub.
    fold n in Hsub. lia.
  - apply not_Forall_Exists in Hnot; [|apply _].
    apply Exists_exists in Hnot as (s & Hs & Hfree).
    apply list_elem_of_fmap in Hs as (j & -> & Hj).
    apply elem_of_seq in Hj. exists j. split; [lia|].
    by apply find_component_None.
Qed.

Lemma free_counter_spec p nm :
  let k := free_counter (S (length (components p))) p nm 1 in
  1 ≤ k
  ∧ find_component_by_name p (suffixed nm k) = None
  ∧ ∀ j, 1 ≤ j < k → is_Some (find_component_by_name p (suffixed nm j)).
Proof.
  destruct (free_counter_exists p nm) as (free & Hr & Hfree).
  destruct (free_counter_first _ p nm 1 free Hr Hfree) as (Hk & Hn & Hj).
  split; [lia|]. split; done.
Qed.

Lemma unique_name_free p nm :
  find_component_by_name p (unique_name p nm) = None.
Proof.
  unfold unique_name.
  destruct (find_component_by_name p nm) eqn:Hf; [|done].
  apply free_counter_spec.
Qed.

Lemma add_component_distinct p nm fn ty :
  distinct_names p → find_component_by_name p nm = None →
  distinct_names (add_component p nm fn ty).
Proof.
  unfold distinct_names. intros Hd Hf.
  apply find_component_None in Hf. unfold lower_names in *. simpl.
  rewrite fmap_app. apply NoDup_app. split; [done|]. split.
  - by intros s Hs [->|[]%not_elem_of_nil]%elem_of_cons.
  - apply NoDup_singleton.
Qed.

Lemma add_component_from_line_eq rt p file_info ty :
  add_component_from_line rt p file_info ty
  = (add_component p (unique_name p (line_name rt file_info))
                   (line_filename file_info) ty, true).
Proof.
  unfold add_component_from_line, line_name, line_filename.
  destruct (split ";" file_info) as [|part0 parts] eqn:Hs; [|done].
  destruct file_info as [|a s]; simpl in Hs; [done|].
  case_decide; [done|]. by destruct (split ";" s).
Qed.

Lemma add_component_from_line_distinct rt p file_info ty :
  distinct_names p → distinct_names (add_component_from_line rt p file_info ty).1.
Proof.
  intros Hd. rewrite add_component_from_line_eq. simpl.
  apply add_component_distinct; [done|]. apply unique_name_free.
Qed.

Lemma dispatch_distinct rt keys p line :
  distinct_names p → distinct_names (dispatch rt keys p line).
Proof.
  intros Hd. induction keys as [|key keys IH]; simpl; [done|].
  destruct (startswith _ _); [|done].
  by apply add_component_from_line_distinct.
Qed.

Lemma process_line_distinct rt p raw :
  distinct_names p → distinct_names (process_line rt p raw).
Proof.
  intros Hd. unfold process_line.
  case_decide; [done|]. destruct (startswith _ "Name="); [done|].
  by apply dispatch_distinct.
Qed.

Lemma parse_lines_distinct rt p lines :
  distinct_names p → distinct_names (foldl (process_line rt) p lines).
Proof.
  revert p. induction lines as [|l lines IH]; intros p Hd; simpl; [done|].
  apply IH. by apply process_line_distinct.
Qed.

End Names.

Example parse_example :
  (λ p, name <$> components p) <$> parse_vbp_file Samples.run_parse "proj/demo.vbp"
  = Some ["frmMain"; "modUtils"; "FRMMAIN_1"; "frmmain_1_1"; "frmMain_2"].
Proof. vm_compute. reflexivity. Qed.

(** C6. A readable manifest always yields a project, and the names of its
    components are pairwise distinct under the case-insensitive comparison
    of the registry.  Registration never fails: an entry whose name is
    free is registered under it, and an entry whose name is taken is
    registered under that name followed by [_k], for the first [k] from 1
    on whose suffixed name is free. *)
Theorem registered_names_distinct (rt : PyRuntime) (vbp_file_path text : string) :
  fs_read rt vbp_file_path = Some text →
  (∃ p, parse_vbp_file rt vbp_file_path = Some p ∧ distinct_names p)
  ∧ (∀ (q : VB6Project) (file_info ty : string),
       let nm := line_name rt file_info in
       let r := add_component_from_line rt q file_info ty in
       r.2 = true
       ∧ ∃ registered,
           components r.1
           = components q ++ [new_component registered (line_filename file_info) ty]
           ∧ find_component_by_name q registered = None
           ∧ (find_component_by_name q nm = None → registered = nm)
           ∧ (is_Some (find_component_by_name q nm) →
              ∃ k, 1 ≤ k ∧ registered = suffixed nm k
                   ∧ ∀ j, 1 ≤ j < k →
                          is_Some (find_component_by_name q (suffixed nm j)))).
Proof.
  intros Hread. split.
  - unfold parse_vbp_file. rewrite Hread. eexists. split; [done|].
    apply parse_lines_distinct. apply NoDup_nil_2.
  - intros q file_info ty nm r. subst r. rewrite add_component_from_line_eq.
    split; [done|]. exists (unique_name q nm). split; [done|].
    split; [apply unique_name_free|].
    unfold unique_name. split.
    + by intros ->.
    + intros [o Ho]. rewrite Ho.
      destruct (free_counter_spec q nm) as (Hk & _ & Hj). eauto.
Qed.

Lemma registered_names_distinct_witness :
  fs_read Samples.run_parse "proj/demo.vbp" = Some Samples.manifest
  ∧ ∃ p, parse_vbp_file Samples.run_parse "proj/demo.vbp" = Some p ∧ distinct_names p.
Proof.
  split; [reflexivity|].
  apply (registered_names_distinct Samples.run_parse "proj/demo.vbp" Samples.manifest).
  reflexivity.
Defined.

(** C10. Membership in [get_dependents] goes by exact string equality: the
    dependents of [c] are precisely the components that have an entry equal
    to [c.name]; a component all of whose entries differ from [c.name], be
    it only by letter case, is not among them. *)
Theorem get_dependents_exact_match (p : VB6Project) (c X : Obj) :
  X ∈ objects p →
  (X ∈ get_dependents p c ↔ ∃ d, d ∈ dependencies X ∧ d = name c)
  ∧ ((∀ d, d ∈ dependencies X → lower d = lower (name c) ∧ d ≠ name c) →
     X ∉ get_dependents p c).
Proof.
  intros HX. split.
  - rewrite elem_of_get_dependents. split.
    + intros [_ Hd]. eauto.
    + intros (d & Hd & ->). done.
  - intros Hcase [_ Hd]%elem_of_get_dependents.
    by destruct (Hcase _ Hd).
Qed.

Lemma get_dependents_exact_match_witness :
  (mkObj 1 Samples.shouting ∈ objects Samples.case_project)
  ∧ (∀ d, d ∈ dependencies Samples.shouting →
          lower d = lower (name Samples.shouted) ∧ d ≠ name Samples.shouted)
  ∧ find_component_by_name Samples.case_project "FRMMAIN" = Some (mkObj 0 Samples.shouted)
  ∧ mkObj 1 Samples.shouting ∉ get_dependents Samples.case_project (mkObj 0 Samples.shouted).
Proof.
  pose (c := mkObj 0 Samples.shouted). pose (X := mkObj 1 Samples.shouting).
  assert (HX : X ∈ objects Samples.case_project) by (apply elem_of_objects; reflexivity).
  assert (Hcase : ∀ d, d ∈ dependencies X → lower d = lower (name c) ∧ d ≠ name c).
  { intros d [->|[]%not_elem_of_nil]%elem_of_cons. split; [reflexivity|discriminate]. }
  split; [exact HX|]. split; [exact Hcase|]. split; [reflexivity|].
  exact (proj2 (get_dependents_exact_match Samples.case_project c X HX) Hcase).
Defined.

(** ** The stable descending sort *)

Section Sort.

Context {A : Type} (key : A → nat).

Lemma insert_desc_Permutation (x : A) (l : list A) : insert_desc key x l ≡ₚ x :: l.
Proof.
  induction l as [|y l IH]; simpl; [done|].
  case_decide; [|done]. rewrite IH. apply Permutation_swap.
Qed.

Lemma sort_desc_Permutation (l : list A) : sort_desc key l ≡ₚ l.
Proof.
  induction l as [|x l IH]; simpl; [done|].
  rewrite insert_desc_Permutation. by rewrite IH.
Qed.

Lemma sort_desc_length (l : list A) : length (sort_desc key l) = length l.
Proof. by rewrite sort_desc_Permutation. Qed.

(** [pos] numbers the elements in their original order. *)
Context (pos : A → nat).

Lemma insert_desc_sorted (x : A) (l : list A) :
  Forall (λ y, pos x < pos y) l →
  StronglySorted (outranks key pos) l →
  StronglySorted (outranks key pos) (insert_desc key x l).
Proof.
  intros Hpos Hs. induction Hs as [|y l Hs IH Hy]; simpl.
  - repeat constructor.
  - apply Forall_cons in Hpos as [Hxy Hpos]. case_decide as Hk.
    + constructor; [by apply IH|].
      rewrite insert_desc_Permutation. constructor; [by left|done].
    + constructor; [by constructor|].
      constructor.
      * unfold outranks. lia.
      * rewrite Forall_forall in *. intros z Hz.
        specialize (Hpos z Hz). specialize (Hy z Hz).
        unfold outranks in *. lia.
Qed.

Lemma sort_desc_sorted (l : list A) :
  StronglySorted (λ a b, pos a < pos b) l →
  StronglySorted (outranks key pos) (sort_desc key l).
Proof.
  induction 1 as [|x l Hs IH Hx]; simpl; [constructor|].
  apply insert_desc_sorted; [|done]. by rewrite sort_desc_Permutation.
Qed.

(** Stability, in its usual form: the elements of one key keep their
    original order. *)
Lemma insert_desc_filter (k : nat) (x : A) (l : list A) :
  filter (λ y, key y = k) (insert_desc key x l) = filter (λ y, key y = k) (x :: l).
Proof.
  induction l as [|y l IH]; simpl; [done|].
  case_decide as Hk; [|done].
  rewrite filter_cons, IH, !filter_cons.
  repeat case_decide; try done; lia.
Qed.

Lemma sort_desc_stable (k : nat) (l : list A) :
  filter (λ y, key y = k) (sort_desc key l) = filter (λ y, key y = k) l.
Proof.
  induction l as [|x l IH]; simpl; [done|].
  by rewrite insert_desc_filter, !filter_cons, IH.
Qed.

End Sort.

Lemma insert_desc_fmap {A B} (f : A → B) (key : B → nat) (x : A) (m : list A) :
  insert_desc key (f x) (f <$> m) = f <$> insert_desc (key ∘ f) x m.
Proof.
  induction m as [|y m IHm]; csimpl; [done|].
  case_decide; [|done]. csimpl. by rewrite IHm.
Qed.

Lemma sort_desc_fmap {A B} (f : A → B) (key : B → nat) (l : list A) :
  sort_desc key (f <$> l) = f <$> sort_desc (key ∘ f) l.
Proof.
  induction l as [|x l IH]; [done|].
  change (sort_desc key (f <$> x :: l))
    with (insert_desc key (f x) (sort_desc key (f <$> l))).
  rewrite IH. apply insert_desc_fmap.
Qed.

(** ** The loops of the diagram builders *)

Section Loops.

Lemma foldl_invariant {S B} (I : S → Prop) (f : S → B → S) (l : list B) (st : S) :
  (∀ st x, x ∈ l → I st → I (f st x)) → I st → I (foldl f st l).
Proof.
  revert st. induction l as [|x l IH]; intros st Hf Hst; simpl; [done|].
  apply IH.
  - intros st' y Hy. apply Hf. by right.
  - apply Hf; [left|done].
Qed.

Lemma enumerate_snoc {A} (l : list A) (x : A) :
  enumerate (l ++ [x]) = enumerate l ++ [(length l, x)].
Proof. unfold enumerate. rewrite imap_app. simpl. by rewrite Nat.add_0_r. Qed.

Lemma edges_of_app (a b : list Line) : edges_of (a ++ b) = edges_of a ++ edges_of b.
Proof. apply omap_app. Qed.

Lemma node_ids_of_app (a b : list Line) :
  node_ids_of (a ++ b) = node_ids_of a ++ node_ids_of b.
Proof. apply omap_app. Qed.

(** The loops that give every component of [comps] a node. *)
Lemma add_nodes_spec (pre : string) (cls : Obj → option string) (comps : list Obj) :
  let st := foldl (add_node pre cls) (∅, []) (enumerate comps) in
  st.2 = imap (λ i (c : Obj), NodeLine (fmt_id pre i) (safe_name (name c)) (cls c)) comps
  ∧ (∀ k v, st.1 !! k = Some v →
            ∃ i (c : Obj), comps !! i = Some c ∧ name c = k ∧ v = fmt_id pre i)
  ∧ (∀ c : Obj, c ∈ comps → is_Some (st.1 !! name c)).
Proof.
  induction comps as [|x comps IH] using rev_ind.
  - simpl. split; [done|]. split.
    + intros k v Hk. by rewrite lookup_empty in Hk.
    + intros c Hc. by apply not_elem_of_nil in Hc.
  - rewrite enumerate_snoc, foldl_app. simpl in *.
    destruct IH as (Hlines & Hids & Hdom).
    set (st := foldl (add_node pre cls) (∅, []) (enumerate comps)) in *.
    split; [|split].
    + rewrite Hlines, imap_app. simpl. by rewrite Nat.add_0_r.
    + intros k v. rewrite lookup_insert. case_decide as Hk.
      * intros [= <-]. exists (length comps), x.
        split; [|done]. by rewrite lookup_app_r, Nat.sub_diag.
      * intros (i & c & Hi & Hn & Hv)%Hids. exists i, c.
        split; [|done]. by apply lookup_app_l_Some.
    + intros c [Hc| ->%list_elem_of_singleton]%elem_of_app.
      * rewrite lookup_insert. case_decide; [done|]. by apply Hdom.
      * by rewrite lookup_insert_eq.
Qed.

Lemma node_lines_no_edges {A} (f : nat → A → Line) (l : list A) :
  (∀ i x, ∃ a b c, f i x = NodeLine a b c) → edges_of (imap f l) = [].
Proof.
  intros Hf. revert f Hf. induction l as [|x l IH]; intros f Hf; [done|].
  rewrite imap_cons. unfold edges_of in *. simpl.
  destruct (Hf 0 x) as (a & b & c & ->). apply IH.
  intros i y. apply Hf.
Qed.

Lemma add_nodes_no_edges (pre : string) (cls : Obj → option string) (comps : list Obj) :
  edges_of (foldl (add_node pre cls) (∅, []) (enumerate comps)).2 = [].
Proof.
  destruct (add_nodes_spec pre cls comps) as (-> & _).
  apply node_lines_no_edges. eauto.
Qed.

Lemma add_nodes_ids (pre : string) (cls : Obj → option string) (comps : list Obj) :
  node_ids_of (foldl (add_node pre cls) (∅, []) (enumerate comps)).2
  = imap (λ i _, fmt_id pre i) comps.
Proof.
  destruct (add_nodes_spec pre cls comps) as (-> & _).
  generalize (fmt_id pre). intros g. revert g.
  induction comps as [|x l IH]; intros g; [done|].
  rewrite !imap_cons. unfold node_ids_of in *. simpl. f_equal. apply (IH (g ∘ S)).
Qed.

Lemma edge_inv_init (P : string → string → Prop) : edge_inv P (∅, []).
Proof.
  split; [constructor|]. split; [done|].
  intros s t Hst. by apply not_elem_of_nil in Hst.
Qed.

Lemma add_edge_inv (P : string → string → Prop) (p : VB6Project)
    (node_ids : gmap string string) (accept : Obj → bool) (src : string)
    (st : EdgeState) (dep : string) :
  (∀ dep_comp tgt,
      find_component_by_name p dep = Some dep_comp → accept dep_comp = true →
      node_ids !! name dep_comp = Some tgt → P src tgt) →
  edge_inv P st → edge_inv P (add_edge p node_ids accept src st dep).
Proof.
  intros HP (Hnd & Hnodes & Hkeys). unfold add_edge.
  destruct (find_component_by_name p dep) as [dep_comp|] eqn:Hfind; [|done].
  destruct (accept dep_comp) eqn:Hacc; [|done].
  destruct (node_ids !! name dep_comp) as [tgt|] eqn:Htgt; [|done].
  case_decide as Hin; [done|].
  split; [|split]; simpl.
  - rewrite edges_of_app. simpl. apply NoDup_app. split; [done|]. split.
    + intros [s t] Hst [= -> ->]%list_elem_of_singleton.
      by destruct (Hkeys _ _ Hst).
    + apply NoDup_singleton.
  - rewrite node_ids_of_app, Hnodes. done.
  - intros s t. rewrite edges_of_app. simpl.
    intros [Hst|[= -> ->]%list_elem_of_singleton]%elem_of_app.
    + destruct (Hkeys _ _ Hst). split; [|done].
      apply elem_of_union. by left.
    + split; [|by eapply HP].
      apply elem_of_union. right. by apply elem_of_singleton.
Qed.

Lemma add_edges_from_inv (P : string → string → Prop) (rt : PyRuntime)
    (p : VB6Project) (node_ids : gmap string string) (accept : Obj → bool)
    (st : EdgeState) (c : Obj) :
  (∀ src dep dep_comp tgt,
      node_ids !! name c = Some src → dep ∈ dependencies c →
      find_component_by_name p dep = Some dep_comp → accept dep_comp = true →
      node_ids !! name dep_comp = Some tgt → P src tgt) →
  edge_inv P st → edge_inv P (add_edges_from rt p node_ids accept st c).
Proof.
  intros HP Hst. unfold add_edges_from.
  destruct (node_ids !! name c) as [src|] eqn:Hsrc; [|done].
  apply foldl_invariant; [|done].
  intros st' dep Hdep Hst'. apply add_edge_inv; [|done].
  intros dep_comp tgt. apply HP; [done|]. by apply items_elem in Hdep.
Qed.

Lemma edge_loop_inv (P : string → string → Prop) (rt : PyRuntime)
    (p : VB6Project) (node_ids : gmap string string) (accept : Obj → bool)
    (st : EdgeState) (comps : list Obj) :
  (∀ (c : Obj) src dep dep_comp tgt,
      c ∈ comps → node_ids !! name c = Some src → dep ∈ dependencies c →
      find_component_by_name p dep = Some dep_comp → accept dep_comp = true →
      node_ids !! name dep_comp = Some tgt → P src tgt) →
  edge_inv P st →
  edge_inv P (foldl (add_edges_from rt p node_ids accept) st comps).
Proof.
  intros HP Hst. apply foldl_invariant; [|done].
  intros st' c Hc Hst'. apply add_edges_from_inv; [|done].
  intros src dep dep_comp tgt. by apply HP.
Qed.

Lemma edge_inv_weaken (P Q : string → string → Prop) (st : EdgeState) :
  (∀ s t, P s t → Q s t) → edge_inv P st → edge_inv Q st.
Proof.
  intros HPQ (Hnd & Hn & Hk). split; [done|]. split; [done|].
  intros s t Hst. destruct (Hk _ _ Hst). auto.
Qed.

(** The lines of a diagram between its header and its styles. *)
Lemma edges_of_diagram (nodes edges : list Line) :
  edges_of nodes = [] →
  edges_of ([Header] ++ nodes ++ edges ++ [Styles]) = edges_of edges.
Proof.
  intros Hn. rewrite !edges_of_app, Hn. simpl. by rewrite app_nil_r.
Qed.

Lemma node_ids_of_diagram (nodes edges : list Line) :
  node_ids_of edges = [] →
  node_ids_of ([Header] ++ nodes ++ edges ++ [Styles]) = node_ids_of nodes.
Proof.
  intros Hn. rewrite !node_ids_of_app, Hn. simpl. by rewrite app_nil_r.
Qed.

End Loops.

(** ** The core view *)

Section Core.

Implicit Types (rt : PyRuntime) (p : VB6Project).

Lemma imap_mkObj_sorted (n : nat) (l : list VB6Component) :
  StronglySorted (λ a b : Obj, addr a < addr b) (imap (λ i, mkObj (n + i)) l)
  ∧ Forall (λ o : Obj, n ≤ addr o) (imap (λ i, mkObj (n + i)) l).
Proof.
  revert n. induction l as [|x l IH]; intros n.
  - split; constructor.
  - rewrite imap_cons.
    rewrite (imap_ext _ (λ i, mkObj (S n + i))) by (intros; simpl; f_equal; lia).
    destruct (IH (S n)) as [Hs Hf]. split.
    + constructor; [done|]. eapply Forall_impl; [done|]. simpl. intros; lia.
    + constructor; [simpl; lia|]. eapply Forall_impl; [done|]. simpl. intros; lia.
Qed.

(** The registry lists its objects in the order of their registration. *)
Lemma objects_sorted p : StronglySorted (λ a b : Obj, addr a < addr b) (objects p).
Proof. apply (imap_mkObj_sorted 0). Qed.

Lemma objects_length p : length (objects p) = length (components p).
Proof. apply length_imap. Qed.

Lemma components_to_render_eq rt p :
  components_to_render rt p
  = take MAX_COMPONENTS (sort_desc (connectivity rt p) (objects p)).
Proof.
  unfold components_to_render, top_connected, component_connections.
  rewrite sort_desc_fmap, fmap_take, <- list_fmap_compose.
  rewrite (list_fmap_ext (fst ∘ (λ comp, (comp, connectivity rt p comp))) id)
    by done.
  by rewrite list_fmap_id.
Qed.

(** [len(set(l))] counts the distinct members, whatever the order. *)
Lemma items_length (o : SetOrder string) (l : list string) :
  length (items o l) = length (remove_dups l).
Proof.
  apply Permutation_length, NoDup_Permutation.
  - apply items_NoDup.
  - apply NoDup_remove_dups.
  - intros x. by rewrite items_elem, elem_of_remove_dups.
Qed.

Lemma core_edges_inv rt p (comps : list Obj) :
  edge_inv (λ s t, ∃ i j (a b : Obj),
               comps !! i = Some a ∧ comps !! j = Some b
               ∧ s = fmt_id "core" i ∧ t = fmt_id "core" j)
           (foldl (add_edges_from rt p (core_nodes comps).1 (λ _, true)) (∅, []) comps).
Proof.
  apply edge_loop_inv; [|apply edge_inv_init].
  intros c src dep dep_comp tgt _ Hsrc _ _ _ Htgt.
  destruct (add_nodes_spec "core" (λ c, Some (core_node_class c)) comps)
    as (_ & Hids & _).
  apply Hids in Hsrc as (i & a & Ha & _ & ->).
  apply Hids in Htgt as (j & b & Hb & _ & ->).
  by exists i, j, a, b.
Qed.

End Core.

Example connectivity_example :
  connectivity Samples.run1 Samples.test_project <$> objects Samples.test_project
  = [4; 3; 3; 2].
Proof. vm_compute. reflexivity. Qed.

Example ranking_example :
  snd <$> component_connections Samples.run1 Samples.ranked_project = [3; 5; 5]
  ∧ (λ c : Obj, name c) <$> top_connected 2 (component_connections Samples.run1 Samples.ranked_project)
    = ["A"; "B"].
Proof. split; vm_compute; reflexivity. Qed.

(** ** The form view *)

Section Forms.

Implicit Types (rt : PyRuntime) (p : VB6Project).

Lemma form_edges_inv rt p :
  edge_inv (λ s t, ∃ i j (a b : Obj),
               form_objects p !! i = Some a ∧ form_objects p !! j = Some b
               ∧ s = fmt_id "form" i ∧ t = fmt_id "form" j)
           (foldl (add_edges_from rt p (form_nodes p).1
                     (λ dep_comp, bool_decide (component_type dep_comp = "Form")))
                  (∅, []) (form_objects p)).
Proof.
  apply edge_loop_inv; [|apply edge_inv_init].
  intros c src dep dep_comp tgt _ Hsrc _ _ _ Htgt.
  destruct (add_nodes_spec "form" (λ _, None) (form_objects p)) as (_ & Hids & _).
  apply Hids in Hsrc as (i & a & Ha & _ & ->).
  apply Hids in Htgt as (j & b & Hb & _ & ->).
  by exists i, j, a, b.
Qed.

End Forms.

Example form_view_example :
  generate_form_relationships_diagram Samples.run1 Samples.test_project
  = [Header; NodeLine "form0" "frmMain" None; NodeLine "form1" "frmOptions" None;
     EdgeLine "form0" "form1"; EdgeLine "form1" "form0"; Styles].
Proof. vm_compute. reflexivity. Qed.

(** ** The business-logic view *)

Section Business.

Implicit Types (rt : PyRuntime) (p : VB6Project).

Lemma elem_of_class_objects p (o : Obj) :
  o ∈ class_objects p ↔ o ∈ objects p ∧ component_type o = "Class".
Proof. unfold class_objects. rewrite list_elem_of_filter. tauto. Qed.

(** Only components of another type are ever added to the related set. *)
Lemma related_not_class rt p (c : Obj) :
  c ∈ related_components rt p → component_type c ≠ "Class".
Proof.
  unfold related_components. rewrite items_elem, list_elem_of_bind.
  intros (cls & Hc & _). unfold related_of in Hc.
  apply elem_of_app in Hc as [Hc|Hc].
  - apply list_elem_of_omap in Hc as (dep & _ & Hdep).
    destruct (find_component_by_name p dep) as [dep_comp|]; [|done].
    case_decide; by simplify_eq.
  - by apply list_elem_of_filter in Hc as [[? _] _].
Qed.

Lemma primary_not_secondary rt p (out : list Line) (node_id : string) :
  is_primary p node_id → ¬ secondary_in rt p out node_id.
Proof.
  intros (i & c & _ & _ & ->) (j & c' & _ & _ & Heq & _).
  unfold fmt_id in Heq. discriminate.
Qed.

(** The nodes of the classes. *)
Lemma class_nodes_primary p (k v : string) :
  (class_nodes p).1 !! k = Some v → is_primary p v.
Proof.
  destruct (add_nodes_spec "class" (λ _, None) (class_objects p)) as (_ & Hids & _).
  intros (i & c & Hc & _ & ->)%Hids. exists i, c. split; [done|]. split; [|done].
  by eapply elem_of_class_objects, list_elem_of_lookup_2.
Qed.

Lemma class_nodes_dom p (c : Obj) :
  c ∈ class_objects p → is_Some ((class_nodes p).1 !! name c).
Proof. apply add_nodes_spec. Qed.

(** What the loop over the related components maintains. *)
Lemma related_nodes_inv rt p :
  let st := business_nodes rt p in
  (∀ k v, st.1 !! k = Some v → is_primary p v ∨ secondary_in rt p st.2 v)
  ∧ (∀ k v, (class_nodes p).1 !! k = Some v → st.1 !! k = Some v)
  ∧ edges_of st.2 = [].
Proof.
  unfold business_nodes.
  apply (foldl_invariant
           (λ st : NodeState,
              (∀ k v, st.1 !! k = Some v → is_primary p v ∨ secondary_in rt p st.2 v)
              ∧ (∀ k v, (class_nodes p).1 !! k = Some v → st.1 !! k = Some v)
              ∧ edges_of st.2 = [])).
  - intros st [i c] Hic (Hids & Hkeep & Hedges).
    apply elem_of_lookup_imap in Hic as (i' & c' & [= <- <-] & Hc).
    unfold related_node. simpl.
    destruct (st.1 !! name c) as [v|] eqn:Hname; [done|]. simpl.
    split; [|split].
    + intros k v. rewrite lookup_insert. case_decide as Hk.
      * intros [= <-]. right. exists i, c. split; [done|]. split.
        { by eapply related_not_class, list_elem_of_lookup_2. }
        split; [done|]. apply elem_of_app. right. by apply list_elem_of_singleton.
      * intros [Hp|Hs]%Hids; [by left|]. right.
        destruct Hs as (j & c' & ? & ? & ? & Hin). exists j, c'.
        repeat split; try done. apply elem_of_app. by left.
    + intros k v Hk. rewrite lookup_insert. case_decide as Hkn.
      * subst k. apply Hkeep in Hk. congruence.
      * by apply Hkeep.
    + rewrite edges_of_app, Hedges. done.
  - split; [|split].
    + intros k v Hk. left. by eapply class_nodes_primary.
    + done.
    + apply add_nodes_no_edges.
Qed.

Lemma business_class_source rt p (c : Obj) (v : string) :
  c ∈ class_objects p → (business_nodes rt p).1 !! name c = Some v → is_primary p v.
Proof.
  intros Hc Hv. destruct (class_nodes_dom p c Hc) as [v' Hv'].
  destruct (related_nodes_inv rt p) as (_ & Hkeep & _).
  rewrite (Hkeep _ _ Hv') in Hv. simplify_eq.
  by eapply class_nodes_primary.
Qed.

Lemma business_edges_inv rt p :
  edge_inv (λ s t, (is_primary p s ∧ (is_primary p t ∨ is_secondary rt p t))
                   ∨ ((is_primary p s ∨ is_secondary rt p s) ∧ is_primary p t))
    (foldl (add_edges_from rt p (business_nodes rt p).1
              (λ dep_comp, bool_decide (component_type dep_comp = "Class")))
           (foldl (add_edges_from rt p (business_nodes rt p).1 (λ _, true))
                  (∅, []) (class_objects p))
           (related_components rt p)).
Proof.
  destruct (related_nodes_inv rt p) as (Hids & _ & _).
  apply edge_loop_inv; [|apply edge_loop_inv; [|apply edge_inv_init]].
  - intros c src dep dep_comp tgt _ Hsrc _ Hfind Hacc Htgt. right.
    split; [by eapply Hids|].
    apply bool_decide_eq_true in Hacc.
    apply find_component_Some in Hfind as [Hobj _].
    eapply business_class_source; [|done]. by apply elem_of_class_objects.
  - intros c src dep dep_comp tgt Hc Hsrc _ _ _ Htgt. left.
    split; [by eapply business_class_source|]. by eapply Hids.
Qed.

End Business.

Example business_example :
  generate_business_logic_diagram Samples.run1 Samples.test_project
  = [Header; NodeLine "class0" "clsData" None;
     NodeLine "related0" "frmMain" (Some "form");
     NodeLine "related1" "modUtils" (Some "module");
     EdgeLine "related0" "class0"; EdgeLine "related1" "class0"; Styles].
Proof. vm_compute. reflexivity. Qed.

(** C5. In the business-logic view the primary nodes are those of the
    Class components and the secondary nodes those of the related
    components of other types.  Every edge written goes from a primary
    node to a primary node, from a primary node to a secondary node, or
    from a secondary node to a primary node; none joins two secondary
    nodes. *)
Theorem business_edges_touch_class (rt : PyRuntime) (p : VB6Project) (s t : string) :
  (s, t) ∈ edges_of (generate_business_logic_diagram rt p) →
  ((is_primary p s ∧ is_primary p t)
   ∨ (is_primary p s ∧ is_secondary rt p t)
   ∨ (is_secondary rt p s ∧ is_primary p t))
  ∧ ¬ (is_secondary rt p s ∧ is_secondary rt p t).
Proof.
  unfold generate_business_logic_diagram.
  rewrite edges_of_diagram by apply related_nodes_inv.
  intros Hst. apply business_edges_inv in Hst as [_ Hkind].
  assert (is_primary p s ∨ is_primary p t) as Hone by tauto.
  split; [tauto|].
  intros [Hs Ht]. destruct Hone as [Hp|Hp].
  - by apply (primary_not_secondary rt p _ _ Hp) in Hs.
  - by apply (primary_not_secondary rt p _ _ Hp) in Ht.
Qed.

Lemma business_edges_touch_class_witness :
  (("related0", "class0")
     ∈ edges_of (generate_business_logic_diagram Samples.run1 Samples.test_project))
  ∧ ((is_primary Samples.test_project "related0"
      ∧ is_primary Samples.test_project "class0")
     ∨ (is_primary Samples.test_project "related0"
        ∧ is_secondary Samples.run1 Samples.test_project "class0")
     ∨ (is_secondary Samples.run1 Samples.test_project "related0"
        ∧ is_primary Samples.test_project "class0"))
  ∧ ¬ (is_secondary Samples.run1 Samples.test_project "related0"
       ∧ is_secondary Samples.run1 Samples.test_project "class0").
Proof.
  assert (H : ("related0", "class0")
                ∈ edges_of (generate_business_logic_diagram Samples.run1 Samples.test_project)).
  { vm_compute. left. }
  split; [exact H|].
  exact (business_edges_touch_class Samples.run1 Samples.test_project _ _ H).
Defined.

(** ** Edges are written once *)

Example repeated_dependency_one_edge :
  edges_of (generate_core_architecture_diagram Samples.run1 Samples.repeating_project)
  = [("core0", "core1")]
  ∧ edges_of (generate_form_relationships_diagram Samples.run1 Samples.repeating_project)
    = [("form0", "form1")].
Proof. split; vm_compute; reflexivity. Qed.

(** C7. Each of the three views writes a directed edge, as a pair of node
    identifiers, at most once, however often the target is listed in the
    dependencies of the source. *)
Theorem edges_written_once (rt : PyRuntime) (p : VB6Project) :
  NoDup (edges_of (generate_core_architecture_diagram rt p))
  ∧ NoDup (edges_of (generate_form_relationships_diagram rt p))
  ∧ NoDup (edges_of (generate_business_logic_diagram rt p)).
Proof.
  split; [|split].
  - unfold generate_core_architecture_diagram.
    rewrite edges_of_diagram by apply add_nodes_no_edges.
    apply core_edges_inv.
  - unfold generate_form_relationships_diagram.
    rewrite edges_of_diagram by apply add_nodes_no_edges.
    apply form_edges_inv.
  - unfold generate_business_logic_diagram.
    rewrite edges_of_diagram by apply related_nodes_inv.
    apply business_edges_inv.
Qed.

(** ** The JSON export *)

Section JsonExport.

Implicit Types (rt : PyRuntime) (p : VB6Project).

Lemma items_Permutation (o1 o2 : SetOrder string) (l : list string) :
  items o1 l ≡ₚ items o2 l.
Proof.
  apply NoDup_Permutation; [apply items_NoDup..|].
  intros x. by rewrite !items_elem.
Qed.

Lemma component_entry_same rt1 rt2 p (comp : Obj) :
  same_up_to_order (component_entry rt1 p comp) (component_entry rt2 p comp).
Proof.
  unfold same_up_to_order, component_entry. simpl.
  repeat split; try done.
  - apply items_Permutation.
  - apply items_NoDup.
  - apply items_NoDup.
  - by rewrite !items_length.
Qed.

Lemma export_json_Some rt p output_file test_mode d :
  export_json rt p output_file test_mode = Some d → d = export_data rt p.
Proof.
  unfold export_json. repeat case_match; congruence.
Qed.

End JsonExport.

(** C4, as the code has it.  The export goes through [list(set(...))]: two
    interpreter runs over the same project may list the dependencies of a
    component in different orders. *)
Lemma export_json_order_differs :
  dependencies_lists <$> export_json Samples.run1 Samples.test_project "map.json" false
  ≠ dependencies_lists <$> export_json Samples.run2 Samples.test_project "map.json" false.
Proof. vm_compute. discriminate. Qed.

(** C4, amended.  Two exports of the same project agree, component by
    component, in every field but the order of [dependencies]: the two
    lists have the same members, each once.  They are the same lists
    whenever both invocations iterate the sets of dependencies in the same
    order, as two invocations within one interpreter run do. *)
Theorem export_json_dependencies_stable (rt1 rt2 : PyRuntime) (p : VB6Project)
    (output_file : string) (test_mode : bool) (d1 d2 : ExportData) :
  export_json rt1 p output_file test_mode = Some d1 →
  export_json rt2 p output_file test_mode = Some d2 →
  Forall2 same_up_to_order (x_components d1) (x_components d2)
  ∧ ((∀ c : Obj, c ∈ objects p →
        items (str_set rt1) (dependencies c) = items (str_set rt2) (dependencies c)) →
     d1 = d2).
Proof.
  intros ->%export_json_Some ->%export_json_Some. split.
  - unfold export_data. simpl. apply Forall2_fmap, Forall_Forall2_diag, Forall_forall.
    intros comp _. apply component_entry_same.
  - intros Hsame. unfold export_data. f_equal.
    apply list_fmap_ext. intros i c Hc.
    unfold component_entry. by rewrite Hsame by by eapply list_elem_of_lookup_2.
Qed.

Lemma export_json_dependencies_stable_witness :
  export_json Samples.run1 Samples.test_project "map.json" false
  = Some (export_data Samples.run1 Samples.test_project)
  ∧ export_json Samples.run2 Samples.test_project "map.json" false
    = Some (export_data Samples.run2 Samples.test_project)
  ∧ Forall2 same_up_to_order
      (x_components (export_data Samples.run1 Samples.test_project))
      (x_components (export_data Samples.run2 Samples.test_project)).
Proof.
  split; [reflexivity|]. split; [reflexivity|].
  apply (export_json_dependencies_stable Samples.run1 Samples.run2 Samples.test_project
           "map.json" false _ _ eq_refl eq_refl).
Defined.

(** ** The reference scanner *)

Section Scan.

Import Scanner.

Lemma dedup_snoc (l : list string) (x : string) :
  dedup (l ++ [x]) = if decide (x ∈ dedup l) then dedup l else dedup l ++ [x].
Proof. unfold dedup. by rewrite foldl_app. Qed.

Lemma elem_of_dedup (l : list string) (x : string) : x ∈ dedup l ↔ x ∈ l.
Proof.
  induction l as [|y l IH] using rev_ind; [done|].
  rewrite dedup_snoc. case_decide as Hy.
  - rewrite elem_of_app, list_elem_of_singleton, <- IH. split; [by left|].
    intros [?| ->]; done.
  - by rewrite !elem_of_app, IH.
Qed.

Lemma NoDup_dedup (l : list string) : NoDup (dedup l).
Proof.
  induction l as [|y l IH] using rev_ind; [constructor|].
  rewrite dedup_snoc. case_decide as Hy; [done|].
  apply NoDup_app. split; [done|]. split; [|apply NoDup_singleton].
  by intros x Hx ->%list_elem_of_singleton.
Qed.

Lemma scan_component_no_self (rt : PyRuntime) (p : VB6Project) (o : Obj) :
  name (scan_component rt p o) ∉ dependencies (scan_component rt p o).
Proof.
  unfold scan_component. destruct (fs_read rt (filename o)); simpl.
  - rewrite elem_of_dedup, list_elem_of_filter. unfold other_names.
    rewrite list_elem_of_filter. tauto.
  - apply not_elem_of_nil.
Qed.

End Scan.

Example scan_example :
  dependencies <$> components (Scanner.analyze_dependencies Samples.run_scan Samples.unscanned)
  = [["frmOptions"; "clsData"]; ["frmMain"]; []].
Proof. vm_compute. reflexivity. Qed.

(** C3. No self-loops: after the scan no component lists its own name
    among its dependencies, whatever its source text contains. *)
Theorem no_self_dependency (rt : PyRuntime) (p : VB6Project) (c : VB6Component) :
  c ∈ components (Scanner.analyze_dependencies rt p) → name c ∉ dependencies c.
Proof.
  simpl. intros (o & -> & _)%list_elem_of_fmap. apply scan_component_no_self.
Qed.

Lemma no_self_dependency_witness :
  Scanner.references "  frmMain.Caption = 1" "frmMain" = true
  ∧ (mkComponent "frmMain" "frmMain.frm" "Form" ["frmOptions"; "clsData"]
       (default "" (fs_read Samples.run_scan "frmMain.frm"))
     ∈ components (Scanner.analyze_dependencies Samples.run_scan Samples.unscanned))
  ∧ "frmMain" ∉ ["frmOptions"; "clsData"].
Proof.
  split; [reflexivity|].
  assert (H : mkComponent "frmMain" "frmMain.frm" "Form" ["frmOptions"; "clsData"]
                (default "" (fs_read Samples.run_scan "frmMain.frm"))
              ∈ components (Scanner.analyze_dependencies Samples.run_scan Samples.unscanned)).
  { vm_compute. left. }
  split; [exact H|].
  exact (no_self_dependency Samples.run_scan Samples.unscanned _ H).
Defined.

(* ===================================================================== *)
(** * More properties of the sources                                      *)
(* ===================================================================== *)

(** ** Labels *)

(** [append] does not unfold under [simpl]; these steps do it by hand. *)
Ltac string_cons :=
  repeat match goal with
    | |- context [String ?a ?s +:+ ?t] =>
        change (String a s +:+ t) with (String a (s +:+ t))
    | |- context [EmptyString +:+ ?t] => change (EmptyString +:+ t) with t
    end.

Section Labels.

Lemma string_app_assoc (s1 s2 s3 : string) : (s1 +:+ s2) +:+ s3 = s1 +:+ (s2 +:+ s3).
Proof. induction s1 as [|a s1 IH]; string_cons; [done|]. by rewrite IH. Qed.

Lemma string_app_nil_r (s : string) : s +:+ "" = s.
Proof. induction s as [|a s IH]; string_cons; [done|]. by rewrite IH. Qed.

Lemma replace_char_app (old : ascii) (new s1 s2 : string) :
  replace_char old new (s1 +:+ s2)
  = replace_char old new s1 +:+ replace_char old new s2.
Proof.
  induction s1 as [|a s1 IH]; string_cons; simpl; [done|].
  by rewrite IH, string_app_assoc.
Qed.

Lemma replace_char_other (old a : ascii) (new : string) :
  a ≠ old → replace_char old new (String a "") = String a "".
Proof. intros Hne. simpl. rewrite decide_False by done. by string_cons. Qed.

Lemma mermaid_label_cons (a : ascii) (s : string) :
  mermaid_label (String a s) = mermaid_label (String a "") +:+ mermaid_label s.
Proof.
  unfold mermaid_label, html_escape.
  change (String a s) with (String a "" +:+ s).
  by rewrite !replace_char_app.
Qed.

Lemma mermaid_label_char (a : ascii) : mermaid_label (String a "") = escape_char a.
Proof.
  unfold escape_char. repeat case_decide; subst; try reflexivity.
  unfold mermaid_label, html_escape.
  by rewrite !replace_char_other.
Qed.

Lemma chars_app (s1 s2 : string) : chars (s1 +:+ s2) = chars s1 ++ chars s2.
Proof. induction s1 as [|a s1 IH]; string_cons; simpl; [done|]. by rewrite IH. Qed.

Lemma escape_char_clean (a c : ascii) :
  c ∈ chars (escape_char a) →
  c ≠ "034"%char ∧ c ≠ "<"%char ∧ c ≠ ">"%char ∧ c ≠ "'"%char.
Proof.
  unfold escape_char. repeat case_decide; simpl;
    rewrite ?elem_of_cons, ?elem_of_nil; intros Hin;
    repeat (destruct Hin as [->|Hin]; [repeat split; congruence|]); done.
Qed.

Lemma escape_char_inj (a b : ascii) (s t : string) :
  escape_char a +:+ s = escape_char b +:+ t → a = b ∧ s = t.
Proof.
  unfold escape_char. repeat case_decide; subst; string_cons; intros Heq;
    simplify_eq; done.
Qed.

End Labels.

Ltac char_absent :=
  simpl; repeat (apply not_elem_of_cons; split; [discriminate|]);
  apply not_elem_of_nil.

Section LabelQuotes.

Lemma replace_char_removes (old : ascii) (new s : string) :
  old ∉ chars new → old ∉ chars (replace_char old new s).
Proof.
  intros Hnew. induction s as [|a s IH]; simpl; [apply not_elem_of_nil|].
  rewrite chars_app, elem_of_app. intros [Ha|Hs]; [|done].
  case_decide; [done|]. simpl in Ha.
  apply list_elem_of_singleton in Ha. done.
Qed.

Lemma replace_char_keeps_out (x old : ascii) (new s : string) :
  x ∉ chars new → x ∉ chars s → x ∉ chars (replace_char old new s).
Proof.
  intros Hnew. induction s as [|a s IH]; simpl; [done|].
  rewrite not_elem_of_cons. intros [Hxa Hs].
  rewrite chars_app, elem_of_app. intros [Ha|Hs']; [|by apply IH].
  case_decide; [done|]. simpl in Ha.
  apply list_elem_of_singleton in Ha. done.
Qed.

Lemma replace_char_absent (old : ascii) (new s : string) :
  old ∉ chars s → replace_char old new s = s.
Proof.
  induction s as [|a s IH]; simpl; [done|].
  rewrite not_elem_of_cons. intros [Hne Hs].
  rewrite decide_False by done. by rewrite IH.
Qed.

End LabelQuotes.

(** X1. The label the builders compute, [html.escape] followed by the two
    [replace] calls, is the character-wise escaping [safe_name]; the last
    call, which would put a backslash before a double quote, never finds
    one to replace. *)
Theorem mermaid_label_charwise (nm : string) :
  mermaid_label nm = safe_name nm
  ∧ mermaid_label nm = replace_char "\" "\\" (html_escape nm).
Proof.
  split.
  - induction nm as [|a s IH]; [done|].
    by rewrite mermaid_label_cons, mermaid_label_char, IH.
  - unfold mermaid_label. apply replace_char_absent.
    apply replace_char_keeps_out; [char_absent|].
    unfold html_escape.
    apply replace_char_keeps_out; [char_absent|].
    apply replace_char_removes.
    char_absent.
Qed.

(** X2. A label never holds a raw double quote, angle bracket or
    apostrophe, whatever the component is called: inside the quoted node
    text of the diagram it cannot end the quotation or open a tag. *)
Theorem mermaid_label_clean (nm : string) (c : ascii) :
  c ∈ chars (mermaid_label nm) →
  c ≠ "034"%char ∧ c ≠ "<"%char ∧ c ≠ ">"%char ∧ c ≠ "'"%char.
Proof.
  assert (mermaid_label nm = safe_name nm) as ->.
  { induction nm as [|a s IH]; [done|].
    by rewrite mermaid_label_cons, mermaid_label_char, IH. }
  induction nm as [|a s IH]; simpl.
  - by intros ?%elem_of_nil.
  - rewrite chars_app, elem_of_app. intros [Ha|Hs]; [|by apply IH].
    by eapply escape_char_clean.
Qed.

Lemma mermaid_label_clean_witness :
  ("q"%char ∈ chars (mermaid_label (String "034" "<b>")))
  ∧ "q"%char ≠ "034"%char ∧ "q"%char ≠ "<"%char ∧ "q"%char ≠ ">"%char
  ∧ "q"%char ≠ "'"%char.
Proof.
  assert (H : "q"%char ∈ chars (mermaid_label (String "034" "<b>"))).
  { vm_compute. do 1 right. left. }
  split; [exact H|].
  exact (mermaid_label_clean _ _ H).
Defined.

(** X3. Escaping loses nothing: two names with the same label are the
    same name. *)
Theorem mermaid_label_inj (nm1 nm2 : string) :
  mermaid_label nm1 = mermaid_label nm2 → nm1 = nm2.
Proof.
  assert (Heq : ∀ s, mermaid_label s = safe_name s).
  { intros s. induction s as [|a s IH]; [done|].
    by rewrite mermaid_label_cons, mermaid_label_char, IH. }
  rewrite !Heq. clear Heq. revert nm2.
  induction nm1 as [|a s IH]; intros [|b t]; simpl.
  - done.
  - intros H. exfalso. revert H. unfold escape_char.
    repeat case_decide; string_cons; discriminate.
  - intros H. exfalso. revert H. unfold escape_char.
    repeat case_decide; string_cons; discriminate.
  - intros [-> Hst]%escape_char_inj. f_equal. by apply IH.
Qed.

Lemma mermaid_label_inj_witness :
  mermaid_label "a<b" = mermaid_label "a<b" ∧ "a<b" = "a<b".
Proof.
  split; [reflexivity|].
  exact (mermaid_label_inj "a<b" "a<b" eq_refl).
Defined.

(** ** Lookups in the registry *)

Section Lookup.

Implicit Types (p : VB6Project) (o : Obj) (nm : string).

Lemma find_in_app (l1 l2 : list Obj) nm :
  find_in (l1 ++ l2) nm
  = match find_in l1 nm with Some o => Some o | None => find_in l2 nm end.
Proof.
  induction l1 as [|o l1 IH]; simpl; [done|]. by case_decide.
Qed.

Lemma find_in_split (objs : list Obj) nm o :
  find_in objs nm = Some o →
  ∃ l1 l2, objs = l1 ++ o :: l2
           ∧ ∀ o', o' ∈ l1 → lower (name o') ≠ lower nm.
Proof.
  induction objs as [|o' objs IH]; simpl; [done|].
  case_decide as He.
  - intros [= <-]. exists [], objs. split; [done|].
    intros ? ?%elem_of_nil. done.
  - intros (l1 & l2 & -> & Hl1)%IH. exists (o' :: l1), l2. split; [done|].
    intros o'' [->|?]%elem_of_cons; auto.
Qed.

Lemma objects_add_component p nm fn ty :
  objects (add_component p nm fn ty)
  = objects p ++ [mkObj (length (components p)) (new_component nm fn ty)].
Proof.
  unfold objects. simpl. rewrite imap_app. simpl. by rewrite Nat.add_0_r.
Qed.

Lemma distinct_names_addr p o1 o2 :
  distinct_names p → o1 ∈ objects p → o2 ∈ objects p →
  lower (name o1) = lower (name o2) → o1 = o2.
Proof.
  intros Hd H1 H2 Hn. apply (objects_addr_inj p); [done..|].
  apply elem_of_objects in H1, H2.
  eapply (NoDup_lookup _ _ _ (lower (name o1)) Hd).
  - unfold lower_names. by rewrite list_lookup_fmap, H1.
  - unfold lower_names. by rewrite list_lookup_fmap, H2, Hn.
Qed.

End Lookup.

(** X4. [find_component_by_name] returns the first registered component
    whose name equals the argument up to letter case, and nothing exactly
    when no component has such a name. *)
Theorem find_component_first_match (p : VB6Project) (nm : string) :
  match find_component_by_name p nm with
  | Some o =>
      o ∈ objects p ∧ lower (name o) = lower nm
      ∧ ∀ o' : Obj, o' ∈ objects p → addr o' < addr o → lower (name o') ≠ lower nm
  | None => ∀ o' : Obj, o' ∈ objects p → lower (name o') ≠ lower nm
  end.
Proof.
  destruct (find_component_by_name p nm) as [o|] eqn:Hfind.
  - destruct (find_component_Some _ _ _ Hfind) as [Ho Hn].
    split; [done|]. split; [done|].
    apply find_in_split in Hfind as (l1 & l2 & Heq & Hl1).
    intros o' Ho' Hlt. apply Hl1.
    pose proof (objects_sorted p) as Hs. rewrite Heq in Hs, Ho'.
    apply elem_of_app in Ho' as [?|Ho']; [done|]. exfalso.
    apply StronglySorted_app_1_r in Hs.
    apply StronglySorted_inv in Hs as [_ Hall].
    apply elem_of_cons in Ho' as [->|Ho']; [lia|].
    rewrite Forall_forall in Hall. specialize (Hall _ Ho'). lia.
  - by apply find_in_None.
Qed.

(** X5. Lookup after registration: a name that was found before is found
    as before; a name that was not found is found exactly when it equals
    the new name up to letter case, and then it is the new component, at
    the end of the registry with no dependencies and no content. *)
Theorem find_after_add_component (p : VB6Project) (nm fn ty nm' : string) :
  find_component_by_name (add_component p nm fn ty) nm'
  = match find_component_by_name p nm' with
    | Some o => Some o
    | None =>
        if decide (lower nm = lower nm')
        then Some (mkObj (length (components p)) (new_component nm fn ty))
        else None
    end.
Proof.
  unfold find_component_by_name.
  rewrite objects_add_component, find_in_app.
  by destruct (find_in (objects p) nm').
Qed.

(** X6. In a registry whose names are pairwise distinct up to letter case,
    as the parser leaves it, looking up any spelling of a component's name
    returns that very component. *)
Theorem find_component_own_name (p : VB6Project) (o : Obj) (nm : string) :
  distinct_names p → o ∈ objects p → lower nm = lower (name o) →
  find_component_by_name p nm = Some o.
Proof.
  intros Hd Ho Hn.
  destruct (find_component_by_name p nm) as [o'|] eqn:Hfind.
  - apply find_component_Some in Hfind as [Ho' Hn'].
    f_equal. apply (distinct_names_addr p); [done..|]. congruence.
  - exfalso. eapply find_in_None in Hfind; [|done]. by apply Hfind.
Qed.

Lemma find_component_own_name_witness :
  distinct_names Samples.test_project
  ∧ (mkObj 2 Samples.modUtils ∈ objects Samples.test_project)
  ∧ lower "MODUTILS" = lower (name Samples.modUtils)
  ∧ find_component_by_name Samples.test_project "MODUTILS" = Some (mkObj 2 Samples.modUtils).
Proof.
  assert (Hd : distinct_names Samples.test_project).
  { apply (bool_decide_unpack _). vm_compute. exact I. }
  assert (Ho : mkObj 2 Samples.modUtils ∈ objects Samples.test_project)
    by (apply elem_of_objects; reflexivity).
  split; [exact Hd|]. split; [exact Ho|]. split; [reflexivity|].
  exact (find_component_own_name Samples.test_project _ "MODUTILS" Hd Ho eq_refl).
Defined.

(** X7. [has_dependents] is true exactly when some component other than
    the given one lists its name: a component that only lists itself has
    a dependent according to [get_dependents] and none according to
    [has_dependents]. *)
Theorem has_dependents_other (p : VB6Project) (c : Obj) :
  c ∈ objects p →
  (has_dependents p c = true ↔ ∃ o, o ∈ get_dependents p c ∧ o ≠ c).
Proof.
  intros Hc. rewrite has_dependents_true. split.
  - intros (o & Ho & Ha & Hd). exists o. split.
    + by apply elem_of_get_dependents.
    + by intros ->.
  - intros (o & [Ho Hd]%elem_of_get_dependents & Hne). exists o.
    split; [done|]. split; [|done].
    intros Ha. apply Hne. by apply (objects_addr_inj p).
Qed.

Lemma has_dependents_other_witness :
  (mkObj 0 (mkComponent "frmSelf" "frmSelf.frm" "Form" ["frmSelf"] "")
     ∈ objects Samples.narcissus_project)
  ∧ (has_dependents Samples.narcissus_project
       (mkObj 0 (mkComponent "frmSelf" "frmSelf.frm" "Form" ["frmSelf"] "")) = true
     ↔ ∃ o, o ∈ get_dependents Samples.narcissus_project
                  (mkObj 0 (mkComponent "frmSelf" "frmSelf.frm" "Form" ["frmSelf"] ""))
            ∧ o ≠ mkObj 0 (mkComponent "frmSelf" "frmSelf.frm" "Form" ["frmSelf"] "")).
Proof.
  assert (Hc : mkObj 0 (mkComponent "frmSelf" "frmSelf.frm" "Form" ["frmSelf"] "")
               ∈ objects Samples.narcissus_project)
    by (apply elem_of_objects; reflexivity).
  split; [exact Hc|].
  exact (has_dependents_other Samples.narcissus_project _ Hc).
Defined.

(** ** What the parser registers *)

Section Manifest.

Implicit Types (rt : PyRuntime) (p : VB6Project).

Lemma dispatch_find rt (keys : list string) p (line : string) :
  dispatch rt keys p line
  = match find (λ key, startswith line (key +:+ "=")) keys with
    | Some key =>
        (add_component_from_line rt p
           (drop_chars (String.length (key +:+ "=")) line) key).1
    | None => p
    end.
Proof.
  induction keys as [|key keys IH]; simpl; [done|].
  by destruct (startswith line (key +:+ "=")).
Qed.

(** The component a line adds, if it adds one. *)
Lemma process_line_components rt p (raw : string) :
  components (process_line rt p raw)
  = components p
    ++ match line_key raw with
       | Some key =>
           [new_component (unique_name p (line_name rt (line_info raw key)))
                          (line_filename (line_info raw key)) key]
       | None => []
       end.
Proof.
  unfold process_line, line_key, line_info.
  case_decide; [by rewrite app_nil_r|].
  destruct (startswith (strip raw) "Name="); [by rewrite app_nil_r|].
  rewrite dispatch_find.
  destruct (find _ component_keys) as [key|]; [|by rewrite app_nil_r].
  by rewrite add_component_from_line_eq.
Qed.

Lemma process_line_name rt p (raw : string) :
  proj_name (process_line rt p raw) = default (proj_name p) (line_project_name raw)
  ∧ proj_path (process_line rt p raw) = proj_path p
  ∧ proj_filename (process_line rt p raw) = proj_filename p.
Proof.
  unfold process_line, line_project_name.
  case_decide; [done|].
  destruct (startswith (strip raw) "Name="); [done|].
  rewrite dispatch_find.
  destruct (find _ component_keys) as [key|]; [|done].
  by rewrite add_component_from_line_eq.
Qed.

Lemma parse_lines_components rt p (lines : list string) :
  (λ c, (component_type c, filename c)) <$> components (foldl (process_line rt) p lines)
  = ((λ c, (component_type c, filename c)) <$> components p)
    ++ omap (λ raw, key ← line_key raw;
                    Some (key, line_filename (line_info raw key))) lines.
Proof.
  revert p. induction lines as [|raw lines IH]; intros p; simpl.
  - by rewrite app_nil_r.
  - rewrite IH, process_line_components, fmap_app, <- app_assoc. f_equal.
    by destruct (line_key raw).
Qed.

Lemma parse_lines_name rt p (lines : list string) :
  proj_name (foldl (process_line rt) p lines)
  = default (proj_name p) (last (omap line_project_name lines))
  ∧ proj_path (foldl (process_line rt) p lines) = proj_path p
  ∧ proj_filename (foldl (process_line rt) p lines) = proj_filename p.
Proof.
  revert p. induction lines as [|raw lines IH]; intros p; csimpl; [done|].
  destruct (IH (process_line rt p raw)) as (-> & -> & ->).
  destruct (process_line_name rt p raw) as (-> & -> & ->).
  split; [|done].
  destruct (line_project_name raw) as [nm|]; csimpl; [|done].
  rewrite last_cons. by destruct (last (omap line_project_name lines)).
Qed.

Lemma line_key_known (raw key : string) :
  line_key raw = Some key → key ∈ component_keys.
Proof.
  unfold line_key. case_decide; [done|].
  destruct (startswith _ "Name="); [done|].
  intros [Hin _]%find_some. by apply list_elem_of_In.
Qed.

(** Counting by type goes by the states alone. *)
Lemma count_components_by_type_states p (ty : string) :
  count_components_by_type p ty
  = length (filter (λ c, component_type c = ty) (components p)).
Proof.
  unfold count_components_by_type, objects.
  generalize (components p). intros l.
  assert (∀ n, length (filter (λ component : Obj, component_type component = ty)
                         (imap (λ i, mkObj (n + i)) l))
               = length (filter (λ c, component_type c = ty) l)) as H.
  { induction l as [|c l IH]; intros n; [done|].
    assert (imap ((λ i, mkObj (n + i)) ∘ S) l = imap (λ i, mkObj (S n + i)) l) as Himap
      by (apply imap_ext; intros; simpl; f_equal; lia).
    rewrite imap_cons, Himap, !filter_cons.
    pose proof (IH (S n)) as IHn.
    repeat case_decide; simpl in *; try done; lia. }
  apply (H 0).
Qed.

Lemma six_counts (l : list VB6Component) :
  Forall (λ c, component_type c ∈ component_keys) l →
  length (filter (λ c, component_type c = "Form") l)
  + length (filter (λ c, component_type c = "Module") l)
  + length (filter (λ c, component_type c = "Class") l)
  + length (filter (λ c, component_type c = "UserControl") l)
  + length (filter (λ c, component_type c = "PropertyPage") l)
  + length (filter (λ c, component_type c = "Designer") l)
  = length l.
Proof.
  induction 1 as [|c l Hc _ IH]; [done|].
  rewrite !filter_cons. simpl.
  unfold component_keys in Hc. rewrite !elem_of_cons in Hc.
  destruct Hc as [Hc|[Hc|[Hc|[Hc|[Hc|[Hc|Hc]]]]]];
    [rewrite Hc in *; repeat case_decide; try congruence; simpl; lia ..|].
  by apply elem_of_nil in Hc.
Qed.

End Manifest.

Example parse_order_example :
  (λ p, (λ c, (component_type c, filename c)) <$> components p)
    <$> parse_vbp_file Samples.run_parse "proj/demo.vbp"
  = Some [("Form", "frmMain.frm"); ("Module", "modUtils.bas");
          ("Form", "sub/FRMMAIN.frm"); ("Form", "old/frmmain_1.frm");
          ("Class", "old/frmMain.cls")].
Proof. vm_compute. reflexivity. Qed.

(** X8. The parser registers one component for every line that starts
    with one of the six keys, in the order of the lines, with the key as
    its type and the stripped text before the first semicolon as its file
    name; no other line adds a component, and no entry is dropped, not
    even one whose name is taken. *)
Theorem parse_registers_in_order (rt : PyRuntime) (vbp_file_path text : string) :
  fs_read rt vbp_file_path = Some text →
  ∃ p, parse_vbp_file rt vbp_file_path = Some p
       ∧ (λ c, (component_type c, filename c)) <$> components p
         = omap (λ raw, key ← line_key raw;
                        Some (key, line_filename (line_info raw key)))
                (splitlines text).
Proof.
  intros Hread. unfold parse_vbp_file. rewrite Hread.
  eexists. split; [done|]. by rewrite parse_lines_components.
Qed.

Lemma parse_registers_in_order_witness :
  fs_read Samples.run_parse "proj/demo.vbp" = Some Samples.manifest
  ∧ ∃ p, parse_vbp_file Samples.run_parse "proj/demo.vbp" = Some p
         ∧ (λ c, (component_type c, filename c)) <$> components p
           = omap (λ raw, key ← line_key raw;
                          Some (key, line_filename (line_info raw key)))
                  (splitlines Samples.manifest).
Proof.
  split; [reflexivity|].
  exact (parse_registers_in_order Samples.run_parse "proj/demo.vbp" Samples.manifest eq_refl).
Defined.

(** X9. The project takes its name from the last [Name=] line, without
    one pair of surrounding quotes, and has the empty name when there is
    no such line; its path and file name come from the path of the
    manifest alone. *)
Theorem parse_project_name (rt : PyRuntime) (vbp_file_path text : string) :
  fs_read rt vbp_file_path = Some text →
  ∃ p, parse_vbp_file rt vbp_file_path = Some p
       ∧ proj_name p = default "" (last (omap line_project_name (splitlines text)))
       ∧ proj_path p = os_path_dirname rt vbp_file_path
       ∧ proj_filename p = os_path_basename rt vbp_file_path.
Proof.
  intros Hread. unfold parse_vbp_file. rewrite Hread.
  eexists. split; [done|]. apply parse_lines_name.
Qed.

Lemma parse_project_name_witness :
  fs_read Samples.run_parse "proj/demo.vbp" = Some Samples.manifest
  ∧ ∃ p, parse_vbp_file Samples.run_parse "proj/demo.vbp" = Some p
         ∧ proj_name p = default "" (last (omap line_project_name (splitlines Samples.manifest)))
         ∧ proj_path p = os_path_dirname Samples.run_parse "proj/demo.vbp"
         ∧ proj_filename p = os_path_basename Samples.run_parse "proj/demo.vbp".
Proof.
  split; [reflexivity|].
  exact (parse_project_name Samples.run_parse "proj/demo.vbp" Samples.manifest eq_refl).
Defined.

(** X10. Every component of a parsed project has one of the six types, so
    the six counts of the summary of the report, and those of the export,
    add up to the total they show. *)
Theorem parsed_counts_add_up (rt rt' : PyRuntime) (vbp_file_path : string) (p : VB6Project) :
  parse_vbp_file rt vbp_file_path = Some p →
  (∀ c, c ∈ components p → component_type c ∈ component_keys)
  ∧ forms (x_statistics (export_data rt' p))
    + modules (x_statistics (export_data rt' p))
    + classes (x_statistics (export_data rt' p))
    + user_controls (x_statistics (export_data rt' p))
    + property_pages (x_statistics (export_data rt' p))
    + designers (x_statistics (export_data rt' p))
    = total_components (x_statistics (export_data rt' p))
  ∧ sum_list (snd <$> take 6 (project_summary p)) = default 0 (snd <$> last (project_summary p)).
Proof.
  unfold parse_vbp_file.
  destruct (fs_read rt vbp_file_path) as [text|]; [|done]. intros [= <-].
  set (p := foldl _ _ _).
  assert (Hty : ∀ c, c ∈ components p → component_type c ∈ component_keys).
  { intros c Hc.
    assert (Hin : (component_type c, filename c)
                    ∈ (λ c, (component_type c, filename c)) <$> components p)
      by (apply list_elem_of_fmap; eauto).
    unfold p in Hin. rewrite parse_lines_components in Hin. simpl in Hin.
    apply list_elem_of_omap in Hin as (raw & _ & Hraw).
    destruct (line_key raw) as [key|] eqn:Hkey; [|done].
    simpl in Hraw. injection Hraw as <- _. by eapply line_key_known. }
  assert (Hsum : count_components_by_type p "Form" + count_components_by_type p "Module"
                 + count_components_by_type p "Class"
                 + count_components_by_type p "UserControl"
                 + count_components_by_type p "PropertyPage"
                 + count_components_by_type p "Designer" = length (components p)).
  { rewrite !count_components_by_type_states. apply six_counts. by apply Forall_forall. }
  split; [done|]. split; [exact Hsum|].
  unfold project_summary. simpl. lia.
Qed.

Lemma parsed_counts_add_up_witness :
  parse_vbp_file Samples.run_parse "proj/demo.vbp" = Some Samples.parsed_demo
  ∧ sum_list (snd <$> take 6 (project_summary Samples.parsed_demo))
    = default 0 (snd <$> last (project_summary Samples.parsed_demo)).
Proof.
  split; [reflexivity|].
  exact (proj2 (proj2 (parsed_counts_add_up Samples.run_parse Samples.run1 "proj/demo.vbp"
                         Samples.parsed_demo eq_refl))).
Defined.

(** ** Quotes and entries *)

Section Quotes.

Lemma prefix_empty (s : string) : String.prefix "" s = true.
Proof. by destruct s. Qed.

Lemma prefix_one (q a : ascii) (t : string) :
  String.prefix (String q "") (String a t) = if ascii_dec q a then true else false.
Proof.
  change (String.prefix (String q "") (String a t))
    with (if ascii_dec q a then String.prefix "" t else false).
  destruct (ascii_dec q a); [apply prefix_empty|done].
Qed.

Lemma endswith_char_snoc (s : string) (c : ascii) :
  endswith_char (s +:+ String c "") c = true.
Proof.
  induction s as [|a s IH]; string_cons; simpl.
  - by apply bool_decide_eq_true.
  - destruct (s +:+ String c "") eqn:Hs; [|done].
    by destruct s.
Qed.

Lemma endswith_char_cons (a b c : ascii) (s : string) :
  endswith_char (String a (String b s)) c = endswith_char (String b s) c.
Proof. done. Qed.

Lemma drop_last_snoc (s : string) (c : ascii) : drop_last (s +:+ String c "") = s.
Proof.
  induction s as [|a s IH]; string_cons; simpl; [done|].
  destruct (s +:+ String c "") eqn:Hs; [by destruct s|].
  by rewrite IH.
Qed.

Lemma unquote_quoted (q : ascii) (s : string) :
  q = "034"%char ∨ q = "'"%char →
  unquote (String q (s +:+ String q "")) = s.
Proof.
  intros Hq.
  assert (endswith_char (String q (s +:+ String q "")) q = true) as Hend.
  { change (String q (s +:+ String q "")) with (String q s +:+ String q "").
    apply endswith_char_snoc. }
  unfold unquote, startswith, inner.
  destruct Hq as [-> | ->]; rewrite Hend, !prefix_one; simpl; apply drop_last_snoc.
Qed.

Lemma split_once_None (sep : ascii) (s : string) :
  sep ∉ chars s → split_once sep s = None.
Proof.
  induction s as [|a s IH]; simpl; [done|].
  rewrite not_elem_of_cons. intros [Hne Hs].
  rewrite decide_False by done. by rewrite IH.
Qed.

Lemma split_chars (sep : ascii) (s part : string) (c : ascii) :
  part ∈ split sep s → c ∈ chars part → c ∈ chars s.
Proof.
  revert part. induction s as [|a s IH]; simpl; intros part.
  - intros ->%list_elem_of_singleton. done.
  - case_decide as Ha.
    + intros [->|Hp]%elem_of_cons; [by intros ?%elem_of_nil|].
      intros Hc. right. by eapply IH.
    + destruct (split sep s) as [|x xs] eqn:Hsplit.
      * intros ->%list_elem_of_singleton. simpl.
        intros [->|[]%elem_of_nil]%elem_of_cons. left.
      * intros [->|Hp]%elem_of_cons; simpl.
        -- intros [->|Hc]%elem_of_cons; [left|]. right.
           eapply IH; [left|done].
        -- intros Hc. right. eapply IH; [by right|done].
Qed.

Lemma name_from_parts_default (parts : list string) (d : string) :
  (∀ part, part ∈ parts → split_once "=" part = None) →
  name_from_parts parts d = d.
Proof.
  induction parts as [|part parts IH]; simpl; intros Hp; [done|].
  rewrite Hp by left. apply IH. intros part' Hin. apply Hp. by right.
Qed.

End Quotes.

(** X11. Removing the quotes undoes quoting: a text between a pair of
    double quotes, or a pair of apostrophes, comes back as it was, and a
    text that does not start with either is left alone. *)
Theorem unquote_round_trip (s : string) :
  unquote (String "034" (s +:+ String "034" "")) = s
  ∧ unquote (String "'" (s +:+ "'")) = s
  ∧ (∀ a t, s = String a t → a ≠ "034"%char → a ≠ "'"%char → unquote s = s)
  ∧ unquote "" = "".
Proof.
  split; [apply unquote_quoted; by left|].
  split; [apply (unquote_quoted "'"); by right|].
  split; [|done].
  intros a t -> Hd Hq. unfold unquote, startswith. rewrite !prefix_one.
  destruct (ascii_dec "034" a) as [<-|_]; [done|].
  destruct (ascii_dec "'" a) as [<-|_]; [done|]. done.
Qed.

(** ** The name an entry is registered under *)

Section Registered.

Implicit Types (rt : PyRuntime) (p : VB6Project).

(** Lines 177-186: a name that is free is kept; a name that is taken gets
    [_k], with [k] the first counter from 1 whose suffixed name is free. *)
Lemma unique_name_spec p (nm : string) :
  (find_component_by_name p nm = None → unique_name p nm = nm)
  ∧ (is_Some (find_component_by_name p nm) →
     ∃ k, 1 ≤ k ∧ unique_name p nm = suffixed nm k
          ∧ find_component_by_name p (suffixed nm k) = None
          ∧ ∀ j, 1 ≤ j < k → is_Some (find_component_by_name p (suffixed nm j))).
Proof.
  unfold unique_name. split.
  - by intros ->.
  - intros [o Ho]. rewrite Ho.
    destruct (free_counter_spec p nm) as (Hk & Hfree & Hbelow).
    by exists (free_counter (S (length (components p))) p nm 1).
Qed.

(** The entry is appended to the registry, without dependencies or
    content, and the call reports success. *)
Lemma add_component_from_line_components rt p (file_info ty : string) :
  components (add_component_from_line rt p file_info ty).1
  = components p ++ [new_component (unique_name p (line_name rt file_info))
                                   (line_filename file_info) ty]
  ∧ (add_component_from_line rt p file_info ty).2 = true.
Proof. by rewrite add_component_from_line_eq. Qed.

End Registered.

(** X12. An entry without an equals sign carries the name its file name
    gives: the base name, without its extension, of the stripped text before
    the first semicolon; what follows that semicolon is ignored.  The entry
    is appended to the registry under that name when no component answers
    to it, and otherwise under that name followed by [_k], with [k] the
    first counter from 1 whose suffixed name no component answers to. *)
Theorem line_name_without_equals (rt : PyRuntime) (p : VB6Project)
    (file_info ty : string) :
  "="%char ∉ chars file_info →
  let stem := fst (os_path_splitext rt (os_path_basename rt (line_filename file_info))) in
  line_name rt file_info = stem
  ∧ components (add_component_from_line rt p file_info ty).1
    = components p ++ [new_component (unique_name p stem) (line_filename file_info) ty]
  ∧ (add_component_from_line rt p file_info ty).2 = true
  ∧ (find_component_by_name p stem = None → unique_name p stem = stem)
  ∧ (is_Some (find_component_by_name p stem) →
     ∃ k, 1 ≤ k ∧ unique_name p stem = suffixed stem k
          ∧ find_component_by_name p (suffixed stem k) = None
          ∧ ∀ j, 1 ≤ j < k → is_Some (find_component_by_name p (suffixed stem j))).
Proof.
  intros Hno stem.
  assert (Hname : line_name rt file_info = stem).
  { unfold line_name. apply name_from_parts_default.
    intros part Hpart. apply split_once_None. intros Hin. apply Hno.
    apply (split_chars ";" file_info part); [|done].
    destruct (split ";" file_info); [by apply elem_of_nil in Hpart|]. by right. }
  split; [done|].
  destruct (add_component_from_line_components rt p file_info ty) as [Hc Hb].
  rewrite Hname in Hc.
  split; [done|]. split; [done|]. apply unique_name_spec.
Qed.

Lemma line_name_without_equals_witness :
  ("="%char ∉ chars "modUtils; modUtils.bas")
  ∧ line_filename "modUtils; modUtils.bas" = "modUtils"
  ∧ (name <$> components (add_component_from_line Samples.run1 Samples.test_project
                            "modUtils; modUtils.bas" "Module").1)
    = ["frmMain"; "frmOptions"; "modUtils"; "clsData"; "modUtils_1"]
  ∧ (name <$> components (add_component_from_line Samples.run1 Samples.test_project
                            "modExtra.bas" "Module").1)
    = ["frmMain"; "frmOptions"; "modUtils"; "clsData"; "modExtra"].
Proof.
  assert (H : "="%char ∉ chars "modUtils; modUtils.bas") by char_absent.
  assert (H' : "="%char ∉ chars "modExtra.bas") by char_absent.
  split; [exact H|]. split; [reflexivity|]. split.
  - rewrite (proj1 (proj2 (line_name_without_equals Samples.run1 Samples.test_project
                             "modUtils; modUtils.bas" "Module" H))).
    vm_compute. reflexivity.
  - rewrite (proj1 (proj2 (line_name_without_equals Samples.run1 Samples.test_project
                             "modExtra.bas" "Module" H'))).
    vm_compute. reflexivity.
Defined.

(** ** What the edge loops write *)

Section EdgeLoops.

Lemma foldl_reach {S B} (Inv G : S → Prop) (f : S → B → S) (l : list B) (st : S) (x : B) :
  (∀ st y, Inv st → Inv (f st y)) →
  (∀ st y, Inv st → G st → G (f st y)) →
  (∀ st, Inv st → G (f st x)) →
  x ∈ l → Inv st → G (foldl f st l).
Proof.
  intros HI HG Hx.
  assert (Hkeep : ∀ l st, Inv st → G st → G (foldl f st l)).
  { clear l st. intros l. induction l as [|y l IH]; intros st Hst Hg; simpl; [done|].
    apply IH; auto. }
  revert st. induction l as [|y l IH]; intros st Hin Hst; simpl.
  - by apply elem_of_nil in Hin.
  - apply elem_of_cons in Hin as [<-|Hin].
    + apply Hkeep; auto.
    + apply IH; auto.
Qed.

Lemma no_dash_pretty_N_go (x : N) (s : string) :
  "-"%char ∉ chars s → "-"%char ∉ chars (pretty_N_go x s).
Proof.
  revert s. induction (N.lt_wf_0 x) as [x _ IH]. intros s Hs.
  destruct (decide (x = 0)%N) as [->|Hx].
  - by rewrite pretty_N_go_0.
  - rewrite pretty_N_go_step by lia. apply IH.
    + apply N.div_lt; lia.
    + simpl. apply not_elem_of_cons. split; [|done].
      unfold pretty_N_char. by repeat case_match.
Qed.

Lemma no_dash_pretty (n : nat) : "-"%char ∉ chars (pretty n).
Proof.
  unfold pretty, pretty_nat, pretty, pretty_N.
  case_decide; [char_absent|]. apply no_dash_pretty_N_go. apply not_elem_of_nil.
Qed.

Lemma no_dash_fmt_id (pre : string) (i : nat) :
  "-"%char ∉ chars pre → "-"%char ∉ chars (fmt_id pre i).
Proof.
  intros Hpre. unfold fmt_id. rewrite chars_app, elem_of_app.
  intros [?|?]; [done|]. by eapply no_dash_pretty.
Qed.

Lemma fmt_id_inj (pre : string) (i j : nat) : fmt_id pre i = fmt_id pre j → i = j.
Proof. unfold fmt_id. intros H%(inj (String.app _)). by apply (inj pretty). Qed.

(** A key names one pair of node identifiers. *)
Lemma edge_key_inj (s t s' t' : string) :
  "-"%char ∉ chars s → "-"%char ∉ chars s' →
  edge_key s t = edge_key s' t' → s = s' ∧ t = t'.
Proof.
  unfold edge_key. revert s'.
  induction s as [|a s IH]; intros [|b s']; string_cons; simpl.
  - intros _ _ [= ->]. done.
  - rewrite not_elem_of_cons. intros _ [Hb _] [= <- _]. done.
  - rewrite not_elem_of_cons. intros [Ha _] _ [= -> _]. done.
  - rewrite !not_elem_of_cons. intros [_ Hs] [_ Hs'] [= -> Heq].
    destruct (IH s' Hs Hs' Heq) as [-> ->]. done.
Qed.

Context (rt : PyRuntime) (p : VB6Project) (node_ids : gmap string string).
Context (accept : Obj → bool).
Hypothesis node_ids_no_dash : ∀ k v, node_ids !! k = Some v → "-"%char ∉ chars v.

Let is_id (v : string) : Prop := ∃ k, node_ids !! k = Some v.
Let logged (st : EdgeState) : Prop :=
  edge_inv (λ s t, is_id s ∧ is_id t) st ∧ edge_log st.

Lemma edge_log_init : logged (∅, []).
Proof.
  split; [apply edge_inv_init|]. split; [done|].
  intros k Hk. by apply elem_of_empty in Hk.
Qed.

Lemma add_edge_log (src : string) (st : EdgeState) (dep : string) :
  is_id src → logged st → logged (add_edge p node_ids accept src st dep).
Proof.
  intros Hsrc [Hinv [Hlines Hkeys]]. split.
  { apply add_edge_inv; [|done]. intros dc tgt _ _ Htgt. split; [done|]. by exists (name dc). }
  unfold add_edge.
  destruct (find_component_by_name p dep) as [dc|]; [|done].
  destruct (accept dc); [|done].
  destruct (node_ids !! name dc) as [tgt|]; [|done].
  case_decide as Hin; [done|]. split; simpl.
  - rewrite edges_of_app, fmap_app. simpl. by rewrite <- Hlines.
  - intros k [Hk| ->%elem_of_singleton]%elem_of_union.
    + destruct (Hkeys k Hk) as (s & t & Hst & ->). exists s, t. split; [|done].
      rewrite edges_of_app. apply elem_of_app. by left.
    + exists src, tgt. split; [|done].
      rewrite edges_of_app. apply elem_of_app. right. simpl. left.
Qed.

Lemma add_edge_mono (src : string) (st : EdgeState) (dep : string) (e : string * string) :
  e ∈ edges_of st.2 → e ∈ edges_of (add_edge p node_ids accept src st dep).2.
Proof.
  intros He. unfold add_edge.
  destruct (find_component_by_name p dep) as [dc|]; [|done].
  destruct (accept dc); [|done].
  destruct (node_ids !! name dc) as [tgt|]; [|done].
  case_decide; [done|]. simpl. rewrite edges_of_app. apply elem_of_app. by left.
Qed.

Lemma add_edge_writes (src : string) (st : EdgeState) (dep : string) (dc : Obj) (tgt : string) :
  is_id src → logged st →
  find_component_by_name p dep = Some dc → accept dc = true →
  node_ids !! name dc = Some tgt →
  (src, tgt) ∈ edges_of (add_edge p node_ids accept src st dep).2.
Proof.
  intros [ks Hsrc] [(_ & _ & Hinv) [_ Hkeys]] Hfind Hacc Htgt.
  unfold add_edge. rewrite Hfind, Hacc, Htgt.
  case_decide as Hin.
  - destruct (Hkeys _ Hin) as (s & t & Hst & Heq).
    destruct (Hinv _ _ Hst) as (_ & [ks' Hs] & _).
    apply edge_key_inj in Heq as [-> ->]; eauto.
  - simpl. rewrite edges_of_app. apply elem_of_app. right. left.
Qed.

Lemma add_edges_from_log (st : EdgeState) (c : Obj) :
  logged st → logged (add_edges_from rt p node_ids accept st c).
Proof.
  intros Hst. unfold add_edges_from.
  destruct (node_ids !! name c) as [src|] eqn:Hsrc; [|done].
  apply foldl_invariant; [|done].
  intros st' dep _ Hst'. apply add_edge_log; [|done]. by exists (name c).
Qed.

Lemma add_edges_from_mono (st : EdgeState) (c : Obj) (e : string * string) :
  e ∈ edges_of st.2 → e ∈ edges_of (add_edges_from rt p node_ids accept st c).2.
Proof.
  intros He. unfold add_edges_from.
  destruct (node_ids !! name c) as [src|]; [|done].
  apply (foldl_invariant (λ st, e ∈ edges_of st.2)); [|done].
  intros st' dep _. apply add_edge_mono.
Qed.

Lemma add_edges_from_writes (st : EdgeState) (c : Obj) (src dep : string)
    (dc : Obj) (tgt : string) :
  logged st → node_ids !! name c = Some src → dep ∈ dependencies c →
  find_component_by_name p dep = Some dc → accept dc = true →
  node_ids !! name dc = Some tgt →
  (src, tgt) ∈ edges_of (add_edges_from rt p node_ids accept st c).2.
Proof.
  intros Hst Hsrc Hdep Hfind Hacc Htgt. unfold add_edges_from. rewrite Hsrc.
  assert (is_id src) as Hid by (by exists (name c)).
  apply (foldl_reach logged (λ st, (src, tgt) ∈ edges_of st.2) _ _ _ dep); [| | | |done].
  - intros st' y. by apply add_edge_log.
  - intros st' y _. apply add_edge_mono.
  - intros st' Hst'. by eapply add_edge_writes.
  - by apply items_elem.
Qed.

Lemma edge_loop_log (st : EdgeState) (comps : list Obj) :
  logged st → logged (foldl (add_edges_from rt p node_ids accept) st comps).
Proof.
  intros Hst. apply foldl_invariant; [|done].
  intros st' c _. apply add_edges_from_log.
Qed.

Lemma edge_loop_mono (st : EdgeState) (comps : list Obj) (e : string * string) :
  e ∈ edges_of st.2 →
  e ∈ edges_of (foldl (add_edges_from rt p node_ids accept) st comps).2.
Proof.
  intros He. apply (foldl_invariant (λ st, e ∈ edges_of st.2)); [|done].
  intros st' c _. apply add_edges_from_mono.
Qed.

(** Every pair the loop comes across is written. *)
Lemma edge_loop_writes (st : EdgeState) (comps : list Obj) (s t : string) :
  logged st → wanted_edge p node_ids accept comps s t →
  (s, t) ∈ edges_of (foldl (add_edges_from rt p node_ids accept) st comps).2.
Proof.
  intros Hst (c & dep & dc & Hc & Hsrc & Hdep & Hfind & Hacc & Htgt).
  apply (foldl_reach logged (λ st, (s, t) ∈ edges_of st.2) _ _ _ c); [| | |done|done].
  - intros st' y. apply add_edges_from_log.
  - intros st' y _. apply add_edges_from_mono.
  - intros st' Hst'. by eapply add_edges_from_writes.
Qed.

(** Only such pairs are written. *)
Lemma edge_loop_wanted (comps : list Obj) :
  edge_inv (wanted_edge p node_ids accept comps)
           (foldl (add_edges_from rt p node_ids accept) (∅, []) comps).
Proof.
  apply edge_loop_inv; [|apply edge_inv_init].
  intros c src dep dc tgt Hc Hsrc Hdep Hfind Hacc Htgt.
  by exists c, dep, dc.
Qed.

Lemma edge_loop_exact (comps : list Obj) (s t : string) :
  (s, t) ∈ edges_of (foldl (add_edges_from rt p node_ids accept) (∅, []) comps).2
  ↔ wanted_edge p node_ids accept comps s t.
Proof.
  split.
  - intros Hst. by apply edge_loop_wanted in Hst as [_ ?].
  - apply edge_loop_writes, edge_log_init.
Qed.

End EdgeLoops.

(** ** The form and core views, exactly *)

Section ExactViews.

Implicit Types (rt : PyRuntime) (p : VB6Project).

Lemma objects_NoDup p : NoDup (objects p).
Proof.
  pose proof (objects_sorted p) as Hs.
  induction Hs as [|o l _ IH Hall]; constructor; [|done].
  intros Hin. rewrite Forall_forall in Hall. specialize (Hall _ Hin). lia.
Qed.

(** Where names are distinct, the node of a component carries its own
    position in the list the nodes were made from. *)
Lemma add_nodes_own_id (pre : string) (cls : Obj → option string) (comps : list Obj)
    (i : nat) (c : Obj) :
  NoDup comps →
  (∀ c1 c2 : Obj, c1 ∈ comps → c2 ∈ comps → name c1 = name c2 → c1 = c2) →
  comps !! i = Some c →
  (foldl (add_node pre cls) (∅, []) (enumerate comps)).1 !! name c = Some (fmt_id pre i).
Proof.
  intros Hnd Hnames Hi.
  destruct (add_nodes_spec pre cls comps) as (_ & Hids & Hdom).
  destruct (Hdom c) as [v Hv]; [by eapply list_elem_of_lookup_2|].
  rewrite Hv. f_equal.
  destruct (Hids _ _ Hv) as (j & c' & Hj & Hn & ->).
  assert (c' = c) as ->.
  { apply Hnames; [by eapply list_elem_of_lookup_2..|done]. }
  f_equal. by eapply NoDup_lookup.
Qed.

Lemma add_nodes_no_dash (pre : string) (cls : Obj → option string) (comps : list Obj)
    (k v : string) :
  "-"%char ∉ chars pre →
  (foldl (add_node pre cls) (∅, []) (enumerate comps)).1 !! k = Some v →
  "-"%char ∉ chars v.
Proof.
  intros Hpre Hv.
  destruct (add_nodes_spec pre cls comps) as (_ & Hids & _).
  destruct (Hids _ _ Hv) as (j & c' & _ & _ & ->). by apply no_dash_fmt_id.
Qed.

Lemma distinct_names_exact p (c1 c2 : Obj) :
  distinct_names p → c1 ∈ objects p → c2 ∈ objects p → name c1 = name c2 → c1 = c2.
Proof. intros Hd H1 H2 Hn. apply (distinct_names_addr p); [done..|]. by rewrite Hn. Qed.

Lemma find_component_iff p (dep : string) (b : Obj) :
  distinct_names p → b ∈ objects p →
  (find_component_by_name p dep = Some b ↔ lower dep = lower (name b)).
Proof.
  intros Hd Hb. split.
  - by intros [_ Hn]%find_component_Some.
  - intros Hn. destruct (find_component_by_name p dep) as [b'|] eqn:Hfind.
    + apply find_component_Some in Hfind as [Hb' Hn'].
      f_equal. apply (distinct_names_addr p); [done..|]. congruence.
    + exfalso. eapply find_in_None in Hfind; [|done]. by apply Hfind.
Qed.

Lemma form_objects_NoDup p : NoDup (form_objects p).
Proof. apply NoDup_filter, objects_NoDup. Qed.

Lemma components_to_render_Permutation rt p :
  ∃ rest, objects p ≡ₚ components_to_render rt p ++ rest.
Proof.
  exists (drop MAX_COMPONENTS (sort_desc (connectivity rt p) (objects p))).
  by rewrite components_to_render_eq, take_drop, sort_desc_Permutation.
Qed.

Lemma components_to_render_NoDup rt p : NoDup (components_to_render rt p).
Proof.
  destruct (components_to_render_Permutation rt p) as [rest Hperm].
  pose proof (objects_NoDup p) as Hnd. rewrite Hperm in Hnd.
  by apply NoDup_app in Hnd as [? _].
Qed.

Lemma components_to_render_objects rt p (c : Obj) :
  c ∈ components_to_render rt p → c ∈ objects p.
Proof.
  destruct (components_to_render_Permutation rt p) as [rest Hperm].
  intros Hc. rewrite Hperm. apply elem_of_app. by left.
Qed.

Lemma connectivity_any_run rt1 rt2 p (c : Obj) :
  connectivity rt1 p c = connectivity rt2 p c.
Proof. unfold connectivity. by rewrite !items_length. Qed.

Lemma sort_desc_ext {A} (key1 key2 : A → nat) (l : list A) :
  (∀ x, key1 x = key2 x) → sort_desc key1 l = sort_desc key2 l.
Proof.
  intros Hk. induction l as [|x l IH]; simpl; [done|]. rewrite IH.
  generalize (sort_desc key2 l). intros m.
  induction m as [|y m IHm]; simpl; [done|].
  rewrite !Hk. case_decide; [|done]. by rewrite IHm.
Qed.

Lemma components_to_render_any_run rt1 rt2 p :
  components_to_render rt1 p = components_to_render rt2 p.
Proof.
  rewrite !components_to_render_eq. f_equal.
  apply sort_desc_ext. intros c. apply connectivity_any_run.
Qed.

(** Two loops that write the same pairs write the same lines, up to
    their order. *)
Lemma edge_lines_Permutation (P Q : string → string → Prop) (st1 st2 : EdgeState) :
  edge_inv P st1 → edge_log st1 → edge_inv Q st2 → edge_log st2 →
  (∀ e, e ∈ edges_of st1.2 ↔ e ∈ edges_of st2.2) →
  st1.2 ≡ₚ st2.2.
Proof.
  intros (Hnd1 & _) [Hl1 _] (Hnd2 & _) [Hl2 _] Hsame.
  rewrite Hl1, Hl2. apply fmap_Permutation. by apply NoDup_Permutation.
Qed.

End ExactViews.

(** ** The core and form views, line by line *)

Section WrittenViews.

Implicit Types (rt : PyRuntime) (p : VB6Project).

(** The identifier a node loop leaves under a name. *)
Lemma add_nodes_lookup (pre : string) (cls : Obj → option string) (comps : list Obj)
    (k : string) :
  (foldl (add_node pre cls) (∅, []) (enumerate comps)).1 !! k = node_id_of pre comps k.
Proof.
  unfold node_id_of.
  induction comps as [|x comps IH] using rev_ind; [done|].
  rewrite enumerate_snoc, foldl_app, filter_app. simpl.
  rewrite lookup_insert, filter_cons, filter_nil. simpl.
  case_decide as Hk.
  - by rewrite last_snoc.
  - by rewrite app_nil_r.
Qed.

Lemma node_id_of_own (pre : string) (comps : list Obj) (i : nat) (c : Obj) :
  NoDup comps →
  (∀ c1 c2 : Obj, c1 ∈ comps → c2 ∈ comps → name c1 = name c2 → c1 = c2) →
  comps !! i = Some c → node_id_of pre comps (name c) = Some (fmt_id pre i).
Proof.
  intros Hnd Hnames Hi. rewrite <- (add_nodes_lookup pre (λ _, None)).
  by apply add_nodes_own_id.
Qed.

(** The lines of a view whose edge loop has run over [comps] with the
    identifiers [ids] of its node loop. *)
Lemma diagram_lines rt p (ids : gmap string string) (accept : Obj → bool)
    (nodes : list Line) (comps : list Obj) :
  (∀ k v, ids !! k = Some v → "-"%char ∉ chars v) →
  edges_of nodes = [] →
  let edges := (foldl (add_edges_from rt p ids accept) (∅, []) comps).2 in
  let out := [Header] ++ nodes ++ edges ++ [Styles] in
  out = [Header] ++ nodes ++ ((λ e, EdgeLine e.1 e.2) <$> edges_of out) ++ [Styles]
  ∧ NoDup (edges_of out)
  ∧ ∀ s t, (s, t) ∈ edges_of out ↔ wanted_edge p ids accept comps s t.
Proof.
  intros Hdash Hnodes edges out.
  assert (edges_of out = edges_of edges) as -> by (by apply edges_of_diagram).
  destruct (edge_loop_log rt p ids accept (∅, []) comps (edge_log_init ids))
    as [(Hnd & _) [Hlines _]].
  split; [|split; [done|]].
  - unfold out, edges. rewrite <- Hlines. done.
  - intros s t. by apply edge_loop_exact.
Qed.

(** The core view: what it writes, and for which pairs it writes an
    edge. *)
Lemma core_view_lines rt p :
  let sel := components_to_render rt p in
  let out := generate_core_architecture_diagram rt p in
  out = [Header]
        ++ imap (λ i (c : Obj), NodeLine (fmt_id "core" i) (safe_name (name c))
                                         (Some (core_node_class c))) sel
        ++ ((λ e, EdgeLine e.1 e.2) <$> edges_of out) ++ [Styles]
  ∧ NoDup (edges_of out)
  ∧ ∀ s t, (s, t) ∈ edges_of out
           ↔ ∃ (a : Obj) (dep : string) (b : Obj),
               a ∈ sel ∧ dep ∈ dependencies a
               ∧ find_component_by_name p dep = Some b
               ∧ node_id_of "core" sel (name a) = Some s
               ∧ node_id_of "core" sel (name b) = Some t.
Proof.
  intros sel out.
  destruct (diagram_lines rt p (core_nodes sel).1 (λ _, true) (core_nodes sel).2 sel)
    as (Hout & Hnd & Hedges).
  { intros k v. apply add_nodes_no_dash. char_absent. }
  { apply add_nodes_no_edges. }
  split; [|split; [done|]].
  - destruct (add_nodes_spec "core" (λ c, Some (core_node_class c)) sel) as (Hlines & _).
    simpl in Hlines. rewrite <- Hlines. exact Hout.
  - intros s t. etransitivity; [apply Hedges|].
    unfold wanted_edge, core_nodes. setoid_rewrite add_nodes_lookup.
    split.
    + intros (c & dep & dc & ? & ? & ? & ? & _ & ?). by exists c, dep, dc.
    + intros (c & dep & dc & ? & ? & ? & ? & ?). by exists c, dep, dc.
Qed.

Lemma core_edges_iff rt p (i j : nat) (a b : Obj) :
  distinct_names p →
  components_to_render rt p !! i = Some a → components_to_render rt p !! j = Some b →
  ((fmt_id "core" i, fmt_id "core" j)
     ∈ edges_of (generate_core_architecture_diagram rt p)
   ↔ ∃ dep, dep ∈ dependencies a ∧ lower dep = lower (name b)).
Proof.
  intros Hd Ha Hb.
  set (sel := components_to_render rt p) in *.
  assert (Hown : ∀ k (c : Obj), sel !! k = Some c →
                   node_id_of "core" sel (name c) = Some (fmt_id "core" k)).
  { intros k c Hk. apply node_id_of_own; [apply components_to_render_NoDup| |done].
    intros c1 c2 H1%components_to_render_objects H2%components_to_render_objects.
    by apply (distinct_names_exact p). }
  destruct (core_view_lines rt p) as (_ & _ & Hedges). rewrite Hedges. fold sel.
  split.
  - intros (c & dep & dc & Hc & Hdep & Hfind & Hsrc & Htgt).
    apply list_elem_of_lookup in Hc as [i' Hi'].
    rewrite (Hown _ _ Hi') in Hsrc. injection Hsrc as ->%fmt_id_inj.
    assert (c = a) as -> by congruence.
    exists dep. split; [done|].
    destruct (find_component_Some _ _ _ Hfind) as [Hdc Hn].
    rewrite <- (add_nodes_lookup "core" (λ _, None)) in Htgt.
    destruct (add_nodes_spec "core" (λ _, None) sel) as (_ & Hids & _).
    destruct (Hids _ _ Htgt) as (j' & c' & Hj' & Hname & ->%fmt_id_inj).
    assert (c' = b) as -> by congruence. congruence.
  - intros (dep & Hdep & Hn). exists a, dep, b.
    split; [by eapply list_elem_of_lookup_2|]. split; [done|].
    split; [|split; by apply Hown].
    apply find_component_iff; [done| |done].
    apply (components_to_render_objects rt). by eapply list_elem_of_lookup_2.
Qed.

(** The form view, likewise. *)
Lemma form_view_lines rt p :
  let out := generate_form_relationships_diagram rt p in
  out = [Header]
        ++ imap (λ i (c : Obj), NodeLine (fmt_id "form" i) (safe_name (name c)) None)
                (form_objects p)
        ++ ((λ e, EdgeLine e.1 e.2) <$> edges_of out) ++ [Styles]
  ∧ NoDup (edges_of out)
  ∧ ∀ s t, (s, t) ∈ edges_of out
           ↔ ∃ (a : Obj) (dep : string) (b : Obj),
               a ∈ form_objects p ∧ dep ∈ dependencies a
               ∧ find_component_by_name p dep = Some b
               ∧ component_type b = "Form"
               ∧ node_id_of "form" (form_objects p) (name a) = Some s
               ∧ node_id_of "form" (form_objects p) (name b) = Some t.
Proof.
  intros out.
  destruct (diagram_lines rt p (form_nodes p).1
              (λ dep_comp, bool_decide (component_type dep_comp = "Form"))
              (form_nodes p).2 (form_objects p))
    as (Hout & Hnd & Hedges).
  { intros k v. apply add_nodes_no_dash. char_absent. }
  { apply add_nodes_no_edges. }
  split; [|split; [done|]].
  - destruct (add_nodes_spec "form" (λ _, None) (form_objects p)) as (Hlines & _).
    simpl in Hlines. rewrite <- Hlines. exact Hout.
  - intros s t. etransitivity; [apply Hedges|].
    unfold wanted_edge, form_nodes. setoid_rewrite add_nodes_lookup.
    setoid_rewrite bool_decide_eq_true.
    split.
    + intros (c & dep & dc & ? & ? & ? & ? & ? & ?). by exists c, dep, dc.
    + intros (c & dep & dc & ? & ? & ? & ? & ? & ?). by exists c, dep, dc.
Qed.

Lemma form_edges_iff rt p (i j : nat) (a b : Obj) :
  distinct_names p →
  form_objects p !! i = Some a → form_objects p !! j = Some b →
  ((fmt_id "form" i, fmt_id "form" j)
     ∈ edges_of (generate_form_relationships_diagram rt p)
   ↔ ∃ dep, dep ∈ dependencies a ∧ lower dep = lower (name b)).
Proof.
  intros Hd Ha Hb.
  assert (Hforms : ∀ o : Obj, o ∈ form_objects p → o ∈ objects p ∧ component_type o = "Form").
  { intros o Ho. unfold form_objects in Ho. apply list_elem_of_filter in Ho. tauto. }
  assert (Hown : ∀ k (c : Obj), form_objects p !! k = Some c →
                   node_id_of "form" (form_objects p) (name c) = Some (fmt_id "form" k)).
  { intros k c Hk. apply node_id_of_own; [apply form_objects_NoDup| |done].
    intros c1 c2 [H1 _]%Hforms [H2 _]%Hforms. by apply (distinct_names_exact p). }
  assert (Hain : a ∈ form_objects p) by (by eapply list_elem_of_lookup_2).
  assert (Hbin : b ∈ form_objects p) by (by eapply list_elem_of_lookup_2).
  destruct (form_view_lines rt p) as (_ & _ & Hedges). rewrite Hedges.
  split.
  - intros (c & dep & dc & Hc & Hdep & Hfind & Hty & Hsrc & Htgt).
    apply list_elem_of_lookup in Hc as [i' Hi'].
    rewrite (Hown _ _ Hi') in Hsrc. injection Hsrc as ->%fmt_id_inj.
    assert (c = a) as -> by congruence.
    exists dep. split; [done|].
    destruct (find_component_Some _ _ _ Hfind) as [Hdc Hn].
    assert (dc ∈ form_objects p) as [j' Hj']%list_elem_of_lookup.
    { unfold form_objects. by apply list_elem_of_filter. }
    rewrite (Hown _ _ Hj') in Htgt. injection Htgt as ->%fmt_id_inj.
    assert (dc = b) as -> by congruence. done.
  - intros (dep & Hdep & Hn). exists a, dep, b.
    split; [done|]. split; [done|].
    split; [apply find_component_iff; [done|by apply Hforms|done]|].
    split; [by apply Hforms|]. split; by apply Hown.
Qed.

End WrittenViews.

(** C2. The core view ranks the components by connectivity, the number of
    dependents plus the number of distinct dependencies, in descending
    order with ties going to the component registered first, and keeps
    the first 20 of the ranking (all of them when the project has fewer).
    Its nodes are the components kept, in that order: the view is a
    header, one node line for each kept component, the [i]-th of the
    ranking under the identifier [f"core{i}"] with its own escaped name
    and class, then the edge lines and the styles.  Both ends of every
    edge it writes are such nodes.  An edge is written, once, for exactly
    the pairs of a kept component and a component that one of its
    dependencies names, from and to the node last written for their names
    (the entry [node_ids] holds for a name); where names are distinct that
    is the edge from the node of the [i]-th kept component to the node of
    the [j]-th whenever the first lists a dependency that is the name of
    the second, letter case apart, and no other.  With the scores A:5,
    B:5, C:3 and A registered before B, the first two of the ranking are
    A then B. *)
Theorem core_view_selection (rt : PyRuntime) (p : VB6Project) :
  (∀ c, connectivity rt p c
        = length (get_dependents p c) + length (remove_dups (dependencies c)))
  ∧ length (components_to_render rt p) = 20 `min` length (components p)
  ∧ (∃ rest,
        objects p ≡ₚ components_to_render rt p ++ rest
        ∧ StronglySorted (outranks (connectivity rt p) addr)
                         (components_to_render rt p ++ rest))
  ∧ node_ids_of (generate_core_architecture_diagram rt p)
    = imap (λ i _, fmt_id "core" i) (components_to_render rt p)
  ∧ (∀ s t, (s, t) ∈ edges_of (generate_core_architecture_diagram rt p) →
            ∃ i j (a b : Obj),
              components_to_render rt p !! i = Some a
              ∧ components_to_render rt p !! j = Some b
              ∧ s = fmt_id "core" i ∧ t = fmt_id "core" j)
  ∧ (∀ A B C : Obj,
        top_connected 2 [(A, 5); (B, 5); (C, 3)] = [A; B]
        ∧ top_connected 2 [(C, 3); (A, 5); (B, 5)] = [A; B]
        ∧ top_connected 2 [(B, 5); (A, 5); (C, 3)] = [B; A])
  ∧ generate_core_architecture_diagram rt p
    = [Header]
      ++ imap (λ i (c : Obj), NodeLine (fmt_id "core" i) (safe_name (name c))
                                       (Some (core_node_class c)))
              (components_to_render rt p)
      ++ ((λ e, EdgeLine e.1 e.2) <$> edges_of (generate_core_architecture_diagram rt p))
      ++ [Styles]
  ∧ NoDup (edges_of (generate_core_architecture_diagram rt p))
  ∧ (∀ k, (core_nodes (components_to_render rt p)).1 !! k
          = node_id_of "core" (components_to_render rt p) k)
  ∧ (∀ s t, (s, t) ∈ edges_of (generate_core_architecture_diagram rt p)
            ↔ ∃ (a : Obj) (dep : string) (b : Obj),
                a ∈ components_to_render rt p ∧ dep ∈ dependencies a
                ∧ find_component_by_name p dep = Some b
                ∧ node_id_of "core" (components_to_render rt p) (name a) = Some s
                ∧ node_id_of "core" (components_to_render rt p) (name b) = Some t)
  ∧ (distinct_names p →
     ∀ i j (a b : Obj),
       components_to_render rt p !! i = Some a →
       components_to_render rt p !! j = Some b →
       ((fmt_id "core" i, fmt_id "core" j)
          ∈ edges_of (generate_core_architecture_diagram rt p)
        ↔ ∃ dep, dep ∈ dependencies a ∧ lower dep = lower (name b))).
Proof.
  destruct (core_view_lines rt p) as (Hout & Hnd & Hedges).
  split; [|split; [|split; [|split; [|split; [|split]]]]].
  - intros c. unfold connectivity. by rewrite items_length.
  - rewrite components_to_render_eq, length_take, sort_desc_length, objects_length.
    reflexivity.
  - exists (drop MAX_COMPONENTS (sort_desc (connectivity rt p) (objects p))).
    rewrite components_to_render_eq, take_drop. split.
    + by rewrite sort_desc_Permutation.
    + apply sort_desc_sorted, objects_sorted.
  - unfold generate_core_architecture_diagram.
    rewrite node_ids_of_diagram by apply core_edges_inv.
    apply add_nodes_ids.
  - intros s t. unfold generate_core_architecture_diagram.
    rewrite edges_of_diagram by apply add_nodes_no_edges.
    intros Hst. by apply core_edges_inv in Hst as [_ ?].
  - intros A B C. done.
  - split; [exact Hout|]. split; [exact Hnd|].
    split; [intros k; apply add_nodes_lookup|]. split; [exact Hedges|].
    intros Hd i j a b. by apply core_edges_iff.
Qed.

Example core_view_example :
  generate_core_architecture_diagram Samples.run1 Samples.ranked_project
  = [Header; NodeLine "core0" "A" (Some "module"); NodeLine "core1" "B" (Some "module");
     NodeLine "core2" "C" (Some "module"); Styles].
Proof. vm_compute. reflexivity. Qed.

(** C8. The form view is the induced subgraph on the forms.  Its nodes
    are the components whose type is Form, one node each in registry
    order: the view is a header, the node line of every form, the [i]-th
    under the identifier [f"form{i}"] with its escaped name, then the edge
    lines and the styles.  Both ends of every edge it writes are nodes of
    forms, and every reference of a form to a form is drawn: an edge is
    written, once, for exactly the pairs of a form and a form that one of
    its dependencies names, from and to the node last written for their
    names (the entry [node_ids] holds for a name); where names are
    distinct that is the edge from the node of the [i]-th form to the node
    of the [j]-th whenever the first lists a dependency that is the name
    of the second, letter case apart, and no other. *)
Theorem form_view_induced (rt : PyRuntime) (p : VB6Project) :
  (∀ o : Obj, o ∈ form_objects p ↔ o ∈ objects p ∧ component_type o = "Form")
  ∧ (form_nodes p).2
    = imap (λ i (c : Obj), NodeLine (fmt_id "form" i) (safe_name (name c)) None)
           (form_objects p)
  ∧ node_ids_of (generate_form_relationships_diagram rt p)
    = imap (λ i _, fmt_id "form" i) (form_objects p)
  ∧ (∀ s t, (s, t) ∈ edges_of (generate_form_relationships_diagram rt p) →
            ∃ i j (a b : Obj),
              form_objects p !! i = Some a ∧ form_objects p !! j = Some b
              ∧ component_type a = "Form" ∧ component_type b = "Form"
              ∧ s = fmt_id "form" i ∧ t = fmt_id "form" j)
  ∧ generate_form_relationships_diagram rt p
    = [Header]
      ++ imap (λ i (c : Obj), NodeLine (fmt_id "form" i) (safe_name (name c)) None)
              (form_objects p)
      ++ ((λ e, EdgeLine e.1 e.2) <$> edges_of (generate_form_relationships_diagram rt p))
      ++ [Styles]
  ∧ NoDup (edges_of (generate_form_relationships_diagram rt p))
  ∧ (∀ k, (form_nodes p).1 !! k = node_id_of "form" (form_objects p) k)
  ∧ (∀ s t, (s, t) ∈ edges_of (generate_form_relationships_diagram rt p)
            ↔ ∃ (a : Obj) (dep : string) (b : Obj),
                a ∈ form_objects p ∧ dep ∈ dependencies a
                ∧ find_component_by_name p dep = Some b
                ∧ component_type b = "Form"
                ∧ node_id_of "form" (form_objects p) (name a) = Some s
                ∧ node_id_of "form" (form_objects p) (name b) = Some t)
  ∧ (distinct_names p →
     ∀ i j (a b : Obj),
       form_objects p !! i = Some a → form_objects p !! j = Some b →
       ((fmt_id "form" i, fmt_id "form" j)
          ∈ edges_of (generate_form_relationships_diagram rt p)
        ↔ ∃ dep, dep ∈ dependencies a ∧ lower dep = lower (name b))).
Proof.
  assert (Hform : ∀ o : Obj, o ∈ form_objects p ↔ o ∈ objects p ∧ component_type o = "Form").
  { intros o. unfold form_objects. rewrite list_elem_of_filter. tauto. }
  destruct (form_view_lines rt p) as (Hout & Hnd & Hedges).
  split; [done|]. split; [apply add_nodes_spec|]. split; [|split].
  - unfold generate_form_relationships_diagram.
    rewrite node_ids_of_diagram by apply form_edges_inv.
    apply add_nodes_ids.
  - intros s t. unfold generate_form_relationships_diagram.
    rewrite edges_of_diagram by apply add_nodes_no_edges.
    intros Hst. apply form_edges_inv in Hst as [_ (i & j & a & b & Ha & Hb & -> & ->)].
    exists i, j, a, b. repeat split; try done.
    + by eapply Hform, list_elem_of_lookup_2.
    + by eapply Hform, list_elem_of_lookup_2.
  - split; [exact Hout|]. split; [exact Hnd|].
    split; [intros k; apply add_nodes_lookup|]. split; [exact Hedges|].
    intros Hd i j a b. by apply form_edges_iff.
Qed.

(** X13. The form view draws exactly the references between forms.  In a
    registry with distinct names, the edge from the node of the [i]-th
    form to the node of the [j]-th form is written if and only if the
    first lists a dependency that is the name of the second, letter case
    apart. *)
Theorem form_edges_exact (rt : PyRuntime) (p : VB6Project) (i j : nat) (a b : Obj) :
  distinct_names p →
  form_objects p !! i = Some a → form_objects p !! j = Some b →
  ((fmt_id "form" i, fmt_id "form" j)
     ∈ edges_of (generate_form_relationships_diagram rt p)
   ↔ ∃ dep, dep ∈ dependencies a ∧ lower dep = lower (name b)).
Proof.
  intros Hd Ha Hb.
  assert (Hforms : ∀ o : Obj, o ∈ form_objects p → o ∈ objects p ∧ component_type o = "Form").
  { intros o Ho. unfold form_objects in Ho. apply list_elem_of_filter in Ho. tauto. }
  assert (Hown : ∀ k (c : Obj), form_objects p !! k = Some c →
                   (form_nodes p).1 !! name c = Some (fmt_id "form" k)).
  { intros k c Hk. apply add_nodes_own_id; [apply form_objects_NoDup| |done].
    intros c1 c2 [H1 _]%Hforms [H2 _]%Hforms. by apply (distinct_names_exact p). }
  assert (Hain : a ∈ form_objects p) by (by eapply list_elem_of_lookup_2).
  assert (Hbin : b ∈ form_objects p) by (by eapply list_elem_of_lookup_2).
  unfold generate_form_relationships_diagram.
  rewrite edges_of_diagram by apply add_nodes_no_edges.
  unfold form_edges. rewrite edge_loop_exact
    by (intros k v; apply add_nodes_no_dash; char_absent).
  split.
  - intros (c & dep & dc & Hc & Hsrc & Hdep & Hfind & Hacc & Htgt).
    apply list_elem_of_lookup in Hc as [i' Hi'].
    rewrite (Hown _ _ Hi') in Hsrc. injection Hsrc as ->%fmt_id_inj.
    assert (c = a) as -> by congruence.
    exists dep. split; [done|].
    apply bool_decide_eq_true in Hacc.
    destruct (find_component_Some _ _ _ Hfind) as [Hdc Hn].
    assert (dc ∈ form_objects p) as [j' Hj']%list_elem_of_lookup.
    { unfold form_objects. by apply list_elem_of_filter. }
    rewrite (Hown _ _ Hj') in Htgt. injection Htgt as ->%fmt_id_inj.
    assert (dc = b) as -> by congruence. done.
  - intros (dep & Hdep & Hn). exists a, dep, b.
    split; [done|]. split; [by apply Hown|]. split; [done|].
    split; [apply find_component_iff; [done|by apply Hforms|done]|].
    split; [apply bool_decide_eq_true; by apply Hforms|]. by apply Hown.
Qed.

Lemma form_edges_exact_witness :
  distinct_names Samples.test_project
  ∧ form_objects Samples.test_project !! 0 = Some (mkObj 0 Samples.frmMain)
  ∧ form_objects Samples.test_project !! 1 = Some (mkObj 1 Samples.frmOptions)
  ∧ ((fmt_id "form" 0, fmt_id "form" 1)
       ∈ edges_of (generate_form_relationships_diagram Samples.run2 Samples.test_project)
     ↔ ∃ dep, dep ∈ dependencies Samples.frmMain ∧ lower dep = lower (name Samples.frmOptions)).
Proof.
  assert (Hd : distinct_names Samples.test_project).
  { apply (bool_decide_unpack _). vm_compute. exact I. }
  split; [exact Hd|]. split; [reflexivity|]. split; [reflexivity|].
  exact (form_edges_exact Samples.run2 Samples.test_project 0 1 _ _ Hd eq_refl eq_refl).
Defined.

(** X14. The core view draws exactly the references among the components
    it keeps.  In a registry with distinct names, the edge from the node
    of the [i]-th kept component to the node of the [j]-th is written if
    and only if the first lists a dependency that is the name of the
    second, letter case apart. *)
Theorem core_edges_exact (rt : PyRuntime) (p : VB6Project) (i j : nat) (a b : Obj) :
  distinct_names p →
  components_to_render rt p !! i = Some a → components_to_render rt p !! j = Some b →
  ((fmt_id "core" i, fmt_id "core" j)
     ∈ edges_of (generate_core_architecture_diagram rt p)
   ↔ ∃ dep, dep ∈ dependencies a ∧ lower dep = lower (name b)).
Proof.
  intros Hd Ha Hb.
  set (sel := components_to_render rt p) in *.
  assert (Hown : ∀ k (c : Obj), sel !! k = Some c →
                   (core_nodes sel).1 !! name c = Some (fmt_id "core" k)).
  { intros k c Hk. apply add_nodes_own_id; [apply components_to_render_NoDup| |done].
    intros c1 c2 H1%components_to_render_objects H2%components_to_render_objects.
    by apply (distinct_names_exact p). }
  assert (Hain : a ∈ sel) by (by eapply list_elem_of_lookup_2).
  assert (Hbin : b ∈ sel) by (by eapply list_elem_of_lookup_2).
  unfold generate_core_architecture_diagram. fold sel.
  rewrite edges_of_diagram by apply add_nodes_no_edges.
  unfold core_edges. rewrite edge_loop_exact
    by (intros k v; apply add_nodes_no_dash; char_absent).
  split.
  - intros (c & dep & dc & Hc & Hsrc & Hdep & Hfind & _ & Htgt).
    apply list_elem_of_lookup in Hc as [i' Hi'].
    rewrite (Hown _ _ Hi') in Hsrc. injection Hsrc as ->%fmt_id_inj.
    assert (c = a) as -> by congruence.
    exists dep. split; [done|].
    destruct (find_component_Some _ _ _ Hfind) as [Hdc Hn].
    destruct (add_nodes_spec "core" (λ c, Some (core_node_class c)) sel)
      as (_ & Hids & _).
    destruct (Hids _ _ Htgt) as (j' & c' & Hj' & Hname & ->%fmt_id_inj).
    assert (c' = b) as -> by congruence. congruence.
  - intros (dep & Hdep & Hn). exists a, dep, b.
    split; [done|]. split; [by apply Hown|]. split; [done|].
    split; [|split; [done|by apply Hown]].
    apply find_component_iff; [done| |done].
    by apply (components_to_render_objects rt).
Qed.

Lemma core_edges_exact_witness :
  distinct_names Samples.test_project
  ∧ components_to_render Samples.run2 Samples.test_project !! 2 = Some (mkObj 2 Samples.modUtils)
  ∧ components_to_render Samples.run2 Samples.test_project !! 3 = Some (mkObj 3 Samples.clsData)
  ∧ ((fmt_id "core" 2, fmt_id "core" 3)
       ∈ edges_of (generate_core_architecture_diagram Samples.run2 Samples.test_project)
     ↔ ∃ dep, dep ∈ dependencies Samples.modUtils ∧ lower dep = lower (name Samples.clsData)).
Proof.
  assert (Hd : distinct_names Samples.test_project).
  { apply (bool_decide_unpack _). vm_compute. exact I. }
  split; [exact Hd|]. split; [reflexivity|]. split; [reflexivity|].
  exact (core_edges_exact Samples.run2 Samples.test_project 2 3 _ _ Hd eq_refl eq_refl).
Defined.

Example views_differ_in_edge_order :
  generate_core_architecture_diagram Samples.run1 Samples.test_project
  ≠ generate_core_architecture_diagram Samples.run2 Samples.test_project.
Proof. vm_compute. discriminate. Qed.

(** X15. The core view and the form view do not depend on the order in
    which the interpreter iterates its sets, except for the order of
    their edge lines: two runs keep the same components, write the same
    node lines, and write the same edge lines, each once. *)
Theorem core_and_form_views_reproducible (rt1 rt2 : PyRuntime) (p : VB6Project) :
  components_to_render rt1 p = components_to_render rt2 p
  ∧ core_edges rt1 p (components_to_render rt1 p)
    ≡ₚ core_edges rt2 p (components_to_render rt2 p)
  ∧ generate_core_architecture_diagram rt1 p ≡ₚ generate_core_architecture_diagram rt2 p
  ∧ form_edges rt1 p ≡ₚ form_edges rt2 p
  ∧ generate_form_relationships_diagram rt1 p ≡ₚ generate_form_relationships_diagram rt2 p.
Proof.
  assert (Hsel := components_to_render_any_run rt1 rt2 p).
  assert (Hcore : core_edges rt1 p (components_to_render rt1 p)
                  ≡ₚ core_edges rt2 p (components_to_render rt2 p)).
  { rewrite Hsel. unfold core_edges.
    set (ids := (core_nodes (components_to_render rt2 p)).1).
    assert (Hdash : ∀ k v, ids !! k = Some v → "-"%char ∉ chars v)
      by (intros k v; apply add_nodes_no_dash; char_absent).
    eapply edge_lines_Permutation.
    - exact (proj1 (edge_loop_log rt1 p ids _ _ _ (edge_log_init ids))).
    - exact (proj2 (edge_loop_log rt1 p ids _ _ _ (edge_log_init ids))).
    - exact (proj1 (edge_loop_log rt2 p ids _ _ _ (edge_log_init ids))).
    - exact (proj2 (edge_loop_log rt2 p ids _ _ _ (edge_log_init ids))).
    - intros [s t]. by rewrite !edge_loop_exact. }
  assert (Hform : form_edges rt1 p ≡ₚ form_edges rt2 p).
  { unfold form_edges. set (ids := (form_nodes p).1).
    assert (Hdash : ∀ k v, ids !! k = Some v → "-"%char ∉ chars v)
      by (intros k v; apply add_nodes_no_dash; char_absent).
    eapply edge_lines_Permutation.
    - exact (proj1 (edge_loop_log rt1 p ids _ _ _ (edge_log_init ids))).
    - exact (proj2 (edge_loop_log rt1 p ids _ _ _ (edge_log_init ids))).
    - exact (proj1 (edge_loop_log rt2 p ids _ _ _ (edge_log_init ids))).
    - exact (proj2 (edge_loop_log rt2 p ids _ _ _ (edge_log_init ids))).
    - intros [s t]. by rewrite !edge_loop_exact. }
  split; [done|]. split; [done|]. split; [|split; [done|]].
  - unfold generate_core_architecture_diagram. rewrite Hcore. by rewrite Hsel.
  - unfold generate_form_relationships_diagram. by rewrite Hform.
Qed.

(** ** Nodes *)

Section Nodes.

Implicit Types (rt : PyRuntime) (p : VB6Project).

Lemma fmt_ids_NoDup {A} (pre : string) (l : list A) :
  NoDup (imap (λ i _, fmt_id pre i) l).
Proof.
  apply NoDup_alt. intros i j v.
  rewrite !list_lookup_imap. intros Hi Hj.
  destruct (l !! i); [|done]. destruct (l !! j); [|done].
  simpl in *. injection Hi as <-. injection Hj as Heq.
  by apply (fmt_id_inj pre).
Qed.

Lemma elem_of_fmt_ids {A} (pre : string) (l : list A) (v : string) :
  v ∈ imap (λ i _, fmt_id pre i) l ↔ ∃ i x, l !! i = Some x ∧ v = fmt_id pre i.
Proof.
  rewrite elem_of_lookup_imap. split.
  - intros (i & x & -> & Hx). eauto.
  - intros (i & x & Hx & ->). eauto.
Qed.

Lemma class_related_ids_differ (i j : nat) : fmt_id "class" i ≠ fmt_id "related" j.
Proof. unfold fmt_id. discriminate. Qed.

(** The loop over the related components only appends lines. *)
Lemma related_nodes_extend (l : list (nat * Obj)) (st : NodeState) :
  ∃ extra, (foldl related_node st l).2 = st.2 ++ extra.
Proof.
  revert st. induction l as [|ic l IH]; intros st; simpl.
  - exists []. by rewrite app_nil_r.
  - destruct (IH (related_node st ic)) as [extra ->].
    unfold related_node. destruct (st.1 !! name ic.2); simpl.
    + by exists extra.
    + eexists. by rewrite <- app_assoc.
Qed.

Lemma related_nodes_ids (l : list (nat * Obj)) (st : NodeState) :
  NoDup (l.*1) → NoDup (node_ids_of st.2) →
  (∀ i, i ∈ l.*1 → fmt_id "related" i ∉ node_ids_of st.2) →
  NoDup (node_ids_of (foldl related_node st l).2).
Proof.
  revert st. induction l as [|[i c] l IH]; intros st Hl Hst Hfresh; simpl; [done|].
  csimpl in Hl. apply NoDup_cons in Hl as [Hi Hl].
  apply IH; [done|..]; unfold related_node; simpl;
    destruct (st.1 !! name c); simpl; try done.
  - rewrite node_ids_of_app. simpl. apply NoDup_app. split; [done|].
    split; [|apply NoDup_singleton].
    intros v Hv ->%list_elem_of_singleton. eapply Hfresh; [|done]. csimpl. left.
  - intros j Hj. apply Hfresh. csimpl. by right.
  - intros j Hj. rewrite node_ids_of_app. simpl.
    rewrite elem_of_app, list_elem_of_singleton.
    intros [Hin|Heq].
    + eapply Hfresh; [|done]. csimpl. by right.
    + apply fmt_id_inj in Heq as ->. done.
Qed.

Lemma enumerate_fst {A} (l : list A) : (enumerate l).*1 = seq 0 (length l).
Proof.
  unfold enumerate. rewrite fmap_imap.
  assert (∀ n, imap (λ i, fst ∘ pair (n + i)) l = seq n (length l)) as H.
  { induction l as [|x l IH]; intros n; [done|].
    rewrite imap_cons. simpl. rewrite Nat.add_0_r. f_equal.
    rewrite <- IH. apply imap_ext. intros; simpl; lia. }
  apply (H 0).
Qed.

Lemma business_node_ids_NoDup rt p : NoDup (node_ids_of (business_nodes rt p).2).
Proof.
  unfold business_nodes. apply related_nodes_ids.
  - rewrite enumerate_fst. apply NoDup_seq.
  - unfold class_nodes. rewrite add_nodes_ids. apply fmt_ids_NoDup.
  - intros i _. unfold class_nodes. rewrite add_nodes_ids, elem_of_fmt_ids.
    intros (j & x & _ & Heq). symmetry in Heq. by apply class_related_ids_differ in Heq.
Qed.

Lemma class_ids_in_business rt p (i : nat) (c : Obj) :
  class_objects p !! i = Some c →
  fmt_id "class" i ∈ node_ids_of (business_nodes rt p).2.
Proof.
  intros Hc. unfold business_nodes.
  destruct (related_nodes_extend (enumerate (related_components rt p)) (class_nodes p))
    as [extra ->].
  rewrite node_ids_of_app. apply elem_of_app. left.
  unfold class_nodes. rewrite add_nodes_ids. apply elem_of_fmt_ids. eauto.
Qed.

Lemma node_line_id (out : list Line) (v l : string) (cls : option string) :
  NodeLine v l cls ∈ out → v ∈ node_ids_of out.
Proof.
  intros Hin. unfold node_ids_of. apply list_elem_of_omap.
  by exists (NodeLine v l cls).
Qed.

End Nodes.

(** X16. Within a diagram no two node lines carry the same identifier. *)
Theorem node_ids_unique (rt : PyRuntime) (p : VB6Project) :
  NoDup (node_ids_of (generate_core_architecture_diagram rt p))
  ∧ NoDup (node_ids_of (generate_form_relationships_diagram rt p))
  ∧ NoDup (node_ids_of (generate_business_logic_diagram rt p)).
Proof.
  split; [|split].
  - unfold generate_core_architecture_diagram.
    rewrite node_ids_of_diagram by apply core_edges_inv.
    unfold core_nodes. rewrite add_nodes_ids. apply fmt_ids_NoDup.
  - unfold generate_form_relationships_diagram.
    rewrite node_ids_of_diagram by apply form_edges_inv.
    unfold form_nodes. rewrite add_nodes_ids. apply fmt_ids_NoDup.
  - unfold generate_business_logic_diagram.
    rewrite node_ids_of_diagram by apply business_edges_inv.
    apply business_node_ids_NoDup.
Qed.

(** X17. No edge dangles: in each of the three diagrams both identifiers
    of every edge line are identifiers of node lines of that diagram. *)
Theorem edges_join_written_nodes (rt : PyRuntime) (p : VB6Project) (s t : string) :
  ((s, t) ∈ edges_of (generate_core_architecture_diagram rt p) →
   s ∈ node_ids_of (generate_core_architecture_diagram rt p)
   ∧ t ∈ node_ids_of (generate_core_architecture_diagram rt p))
  ∧ ((s, t) ∈ edges_of (generate_form_relationships_diagram rt p) →
     s ∈ node_ids_of (generate_form_relationships_diagram rt p)
     ∧ t ∈ node_ids_of (generate_form_relationships_diagram rt p))
  ∧ ((s, t) ∈ edges_of (generate_business_logic_diagram rt p) →
     s ∈ node_ids_of (generate_business_logic_diagram rt p)
     ∧ t ∈ node_ids_of (generate_business_logic_diagram rt p)).
Proof.
  split; [|split].
  - unfold generate_core_architecture_diagram.
    rewrite edges_of_diagram by apply add_nodes_no_edges.
    rewrite node_ids_of_diagram by apply core_edges_inv.
    intros Hst. apply core_edges_inv in Hst as [_ (i & j & a & b & Ha & Hb & -> & ->)].
    unfold core_nodes. rewrite add_nodes_ids, !elem_of_fmt_ids. eauto 10.
  - unfold generate_form_relationships_diagram.
    rewrite edges_of_diagram by apply add_nodes_no_edges.
    rewrite node_ids_of_diagram by apply form_edges_inv.
    intros Hst. apply form_edges_inv in Hst as [_ (i & j & a & b & Ha & Hb & -> & ->)].
    unfold form_nodes. rewrite add_nodes_ids, !elem_of_fmt_ids. eauto 10.
  - unfold generate_business_logic_diagram.
    rewrite edges_of_diagram by apply related_nodes_inv.
    rewrite node_ids_of_diagram by apply business_edges_inv.
    intros Hst. apply business_edges_inv in Hst as [_ Hkind].
    assert (Hprim : ∀ v, is_primary p v → v ∈ node_ids_of (business_nodes rt p).2).
    { intros v (i & c & Hc & _ & ->). by eapply class_ids_in_business. }
    assert (Hsec : ∀ v, is_secondary rt p v → v ∈ node_ids_of (business_nodes rt p).2).
    { intros v (i & c & _ & _ & _ & Hline). by eapply node_line_id. }
    destruct Hkind as [[Hs [Ht|Ht]]|[[Hs|Hs] Ht]]; auto.
Qed.

Section Related.

Lemma elem_of_related_components (rt : PyRuntime) (p : VB6Project) (c : Obj) :
  c ∈ related_components rt p
  ↔ c ∈ objects p ∧ component_type c ≠ "Class"
    ∧ ∃ cls : Obj,
        cls ∈ objects p ∧ component_type cls = "Class"
        ∧ (name cls ∈ dependencies c
           ∨ ∃ dep, dep ∈ dependencies cls ∧ find_component_by_name p dep = Some c).
Proof.
  unfold related_components. rewrite items_elem, list_elem_of_bind.
  split.
  - intros (cls & Hc & [Hcls Hty]%elem_of_class_objects).
    unfold related_of in Hc. apply elem_of_app in Hc as [Hc|Hc].
    + apply list_elem_of_omap in Hc as (dep & Hdep%items_elem & Hfind).
      destruct (find_component_by_name p dep) as [dc|] eqn:Hdc; [|done].
      case_decide; [|done]. simplify_eq.
      split; [by eapply find_component_Some|]. split; [done|].
      exists cls. split; [done|]. split; [done|]. right. eauto.
    + apply list_elem_of_filter in Hc as [[Hnc Hin] Hobj].
      split; [done|]. split; [done|]. exists cls. auto.
  - intros (Hobj & Hnc & cls & Hcls & Hty & Hrel).
    exists cls. split; [|by apply elem_of_class_objects].
    unfold related_of. apply elem_of_app. destruct Hrel as [Hin|(dep & Hdep & Hfind)].
    + right. by apply list_elem_of_filter.
    + left. apply list_elem_of_omap. exists dep. split; [by apply items_elem|].
      rewrite Hfind. by rewrite decide_True.
Qed.

End Related.

(** X18. The related components of the business view are the components
    of a type other than Class that list the exact name of some class, or
    that a dependency of some class names, letter case apart; the order
    of the sets plays no part in which components are related. *)
Theorem related_components_exact (rt : PyRuntime) (p : VB6Project) (c : Obj) :
  c ∈ related_components rt p
  ↔ c ∈ objects p ∧ component_type c ≠ "Class"
    ∧ ∃ cls : Obj,
        cls ∈ objects p ∧ component_type cls = "Class"
        ∧ (name cls ∈ dependencies c
           ∨ ∃ dep, dep ∈ dependencies cls ∧ find_component_by_name p dep = Some c).
Proof. apply elem_of_related_components. Qed.

(** ** The lists of the report *)

Section Sorted.

Context {A : Type} (key : A → string).

Lemma insert_asc_Permutation (x : A) (l : list A) : insert_asc key x l ≡ₚ x :: l.
Proof.
  induction l as [|y l IH]; simpl; [done|].
  case_decide; [done|]. rewrite IH. apply Permutation_swap.
Qed.

Lemma sorted_Permutation (l : list A) : sorted key l ≡ₚ l.
Proof.
  induction l as [|x l IH]; simpl; [done|].
  rewrite insert_asc_Permutation. by rewrite IH.
Qed.

Lemma insert_asc_sorted (x : A) (l : list A) :
  StronglySorted (λ a b, String.le (key a) (key b)) l →
  StronglySorted (λ a b, String.le (key a) (key b)) (insert_asc key x l).
Proof.
  induction 1 as [|y l Hs IH Hy]; simpl.
  - repeat constructor.
  - case_decide as Hle.
    + constructor; [by constructor|]. constructor; [done|].
      eapply Forall_impl; [done|]. simpl. intros z Hz. by etrans.
    + constructor; [done|]. rewrite insert_asc_Permutation.
      constructor; [|done].
      destruct (total String.le (key x) (key y)); done.
Qed.

Lemma sorted_sorted (l : list A) :
  StronglySorted (λ a b, String.le (key a) (key b)) (sorted key l).
Proof.
  induction l as [|x l IH]; simpl; [constructor|]. by apply insert_asc_sorted.
Qed.

End Sorted.

Section Report.

Implicit Types (rt : PyRuntime) (p : VB6Project).

(** Sorting strings forgets the order they came in. *)
Lemma sorted_strings_unique (l1 l2 : list string) :
  l1 ≡ₚ l2 → sorted id l1 = sorted id l2.
Proof.
  intros Hperm. apply (StronglySorted_unique String.le).
  - apply (sorted_sorted id).
  - apply (sorted_sorted id).
  - by rewrite !sorted_Permutation.
Qed.

Lemma listed_dependencies_any_run rt1 rt2 (c : Obj) :
  listed_dependencies rt1 c = listed_dependencies rt2 c.
Proof.
  unfold listed_dependencies. f_equal. apply sorted_strings_unique.
  apply NoDup_Permutation; [apply items_NoDup..|].
  intros x. by rewrite !items_elem.
Qed.

Lemma foldl_insert_lookup {V} (key : Obj → string) (val : Obj → V)
    (l : list Obj) (m : gmap string V) (k : string) :
  foldl (λ m o, <[key o := val o]> m) m l !! k
  = match last (filter (λ o, key o = k) l) with
    | Some o => Some (val o)
    | None => m !! k
    end.
Proof.
  revert m. induction l as [|o l IH] using rev_ind; intros m; [done|].
  rewrite foldl_app, filter_app. simpl. rewrite lookup_insert.
  rewrite filter_cons, filter_nil.
  case_decide as Hk.
  - by rewrite last_snoc.
  - rewrite app_nil_r. apply IH.
Qed.

(** Counting the pairs of a relation by rows or by columns. *)
Lemma double_count {B C} (R : B → C → Prop) `{∀ x y, Decision (R x y)}
    (lb : list B) (lc : list C) :
  sum_list ((λ b, length (filter (R b) lc)) <$> lb)
  = sum_list ((λ c, length (filter (λ b, R b c) lb)) <$> lc).
Proof.
  induction lb as [|b lb IH]; csimpl.
  - induction lc as [|c lc IHc]; csimpl; [done|]. by rewrite <- IHc.
  - rewrite IH. clear IH.
    induction lc as [|c lc IHc]; csimpl; [done|].
    rewrite !filter_cons. repeat case_decide; csimpl; try done; lia.
Qed.

Lemma named_in_length p (l : list string) :
  distinct_names p →
  length (filter (λ c : Obj, name c ∈ l) (objects p)) ≤ length (remove_dups l).
Proof.
  intros Hd.
  rewrite <- (length_fmap (λ c : Obj, name c)).
  apply submseteq_length, NoDup_submseteq.
  - apply NoDup_fmap_2_strong; [|apply NoDup_filter, objects_NoDup].
    intros c1 c2 [_ H1]%list_elem_of_filter [_ H2]%list_elem_of_filter.
    by apply (distinct_names_exact p).
  - intros nm (c & -> & [Hin _]%list_elem_of_filter)%list_elem_of_fmap.
    by apply elem_of_remove_dups.
Qed.

End Report.

(** X19. The dependency lists of the report are sorted after the set is
    taken: unlike those of the JSON export they come out the same in every
    run.  Each names every dependency once, in ascending order. *)
Theorem report_lists_reproducible (rt1 rt2 : PyRuntime) (p : VB6Project) (c : Obj) :
  listed_dependencies rt1 c = listed_dependencies rt2 c
  ∧ dependency_table rt1 p = dependency_table rt2 p
  ∧ StronglySorted String.le (sorted id (items (str_set rt1) (dependencies c)))
  ∧ NoDup (sorted id (items (str_set rt1) (dependencies c)))
  ∧ ∀ dep, dep ∈ sorted id (items (str_set rt1) (dependencies c)) ↔ dep ∈ dependencies c.
Proof.
  split; [apply listed_dependencies_any_run|]. split; [|split; [|split]].
  - unfold dependency_table. apply list_fmap_ext. intros i o _.
    unfold table_row, dependencies_cell. by rewrite (listed_dependencies_any_run rt1 rt2).
  - apply (sorted_sorted id).
  - rewrite sorted_Permutation. apply items_NoDup.
  - intros dep. by rewrite sorted_Permutation, items_elem.
Qed.

(** X20. The dependency table has one row for every component, in
    ascending order of the component names. *)
Theorem dependency_table_rows (rt : PyRuntime) (p : VB6Project) :
  ∃ rows : list Obj,
    rows ≡ₚ objects p
    ∧ StronglySorted (λ a b : Obj, String.le (name a) (name b)) rows
    ∧ dependency_table rt p = table_row rt p <$> rows
    ∧ length (dependency_table rt p) = length (components p).
Proof.
  exists (sorted (λ x : Obj, name x) (objects p)).
  split; [apply sorted_Permutation|]. split; [apply (sorted_sorted (λ x : Obj, name x))|].
  split; [done|].
  unfold dependency_table. by rewrite length_fmap, sorted_Permutation, objects_length.
Qed.

(** X21. The dict that [add_visualization_scripts] builds in its loop,
    before it is serialised and the script tags in the text are rewritten,
    is keyed by the exact name: under a name it holds the data of the
    component registered last with that name, and nothing when no
    component has it.  In a registry with distinct names every component
    is found in that dict under its own name. *)
Theorem project_data_lookup (rt : PyRuntime) (p : VB6Project) (k : string) :
  project_data rt p !! k
  = node_data rt p <$> last (filter (λ o : Obj, name o = k) (objects p))
  ∧ (distinct_names p →
     ∀ o : Obj, o ∈ objects p → project_data rt p !! name o = Some (node_data rt p o)).
Proof.
  assert (Hlook : ∀ k, project_data rt p !! k
            = node_data rt p <$> last (filter (λ o : Obj, name o = k) (objects p))).
  { intros k'. unfold project_data.
    rewrite (foldl_insert_lookup (λ o : Obj, name o) (node_data rt p)).
    by destruct (last _). }
  split; [done|].
  intros Hd o Ho. rewrite Hlook.
  destruct (last (filter (λ o' : Obj, name o' = name o) (objects p))) as [o'|] eqn:Hlast.
  - apply last_Some_elem_of in Hlast. apply list_elem_of_filter in Hlast as [Hn Ho'].
    simpl. f_equal. f_equal. by apply (distinct_names_exact p).
  - apply last_None in Hlast.
    assert (o ∈ filter (λ o' : Obj, name o' = name o) (objects p)) as Hin
      by (by apply list_elem_of_filter).
    rewrite Hlast in Hin. by apply elem_of_nil in Hin.
Qed.

(** X22. In the export of a registry with distinct names the dependent
    counts add up to no more than the dependency counts: every
    dependent stands for a dependency, counted once, that names a
    component exactly. *)
Theorem export_counts_balance (rt : PyRuntime) (p : VB6Project) :
  distinct_names p →
  sum_list (e_dependent_count <$> x_components (export_data rt p))
  ≤ sum_list (e_dependency_count <$> x_components (export_data rt p)).
Proof.
  intros Hd. unfold export_data. simpl. rewrite <- !list_fmap_compose.
  transitivity (sum_list ((λ X : Obj, length (filter (λ c : Obj, name c ∈ dependencies X)
                                               (objects p))) <$> objects p)).
  - apply Nat.eq_le_incl.
    rewrite <- (double_count (λ (c X : Obj), name c ∈ dependencies X)).
    apply (f_equal sum_list), list_fmap_ext. intros i c _. simpl.
    by rewrite length_fmap.
  - assert (∀ l : list Obj,
              sum_list ((λ X : Obj, length (filter (λ c : Obj, name c ∈ dependencies X)
                                              (objects p))) <$> l)
              ≤ sum_list (e_dependency_count ∘ component_entry rt p <$> l)) as Hall.
    { intros l. induction l as [|X l IH]; csimpl; [done|].
      rewrite items_length.
      pose proof (named_in_length p (dependencies X) Hd). lia. }
    apply Hall.
Qed.

Lemma export_counts_balance_witness :
  distinct_names Samples.test_project
  ∧ sum_list (e_dependent_count <$> x_components (export_data Samples.run1 Samples.test_project))
    ≤ sum_list (e_dependency_count <$> x_components (export_data Samples.run1 Samples.test_project)).
Proof.
  assert (Hd : distinct_names Samples.test_project).
  { apply (bool_decide_unpack _). vm_compute. exact I. }
  split; [exact Hd|].
  exact (export_counts_balance Samples.run1 Samples.test_project Hd).
Defined.

(** ** The business-logic view, completely *)

Section BusinessComplete.

Implicit Types (rt : PyRuntime) (p : VB6Project).

Lemma related_node_keeps (st : NodeState) (ic : nat * Obj) (k : string) :
  is_Some (st.1 !! k) → is_Some ((related_node st ic).1 !! k).
Proof.
  intros Hk. unfold related_node. destruct (st.1 !! name ic.2) eqn:Hn; [done|].
  simpl. rewrite lookup_insert. by case_decide.
Qed.

Lemma related_node_own (st : NodeState) (ic : nat * Obj) :
  is_Some ((related_node st ic).1 !! name ic.2).
Proof.
  unfold related_node. destruct (st.1 !! name ic.2) eqn:Hn; [by rewrite Hn|].
  simpl. by rewrite lookup_insert_eq.
Qed.

(** Every related component has a node under its name. *)
Lemma related_nodes_dom rt p (c : Obj) :
  c ∈ related_components rt p → is_Some ((business_nodes rt p).1 !! name c).
Proof.
  intros [i Hi]%list_elem_of_lookup. unfold business_nodes.
  apply (foldl_reach (λ _, True) (λ st : NodeState, is_Some (st.1 !! name c))
           _ _ _ (i, c)); [done| | | |done].
  - intros st y _. apply related_node_keeps.
  - intros st _. apply (related_node_own st (i, c)).
  - unfold enumerate. apply elem_of_lookup_imap. eauto.
Qed.

Lemma class_nodes_kept rt p (c : Obj) :
  c ∈ class_objects p → is_Some ((business_nodes rt p).1 !! name c).
Proof.
  intros [v Hv]%class_nodes_dom.
  destruct (related_nodes_inv rt p) as (_ & Hkeep & _).
  exists v. by apply Hkeep.
Qed.

Lemma business_ids_no_dash rt p (k v : string) :
  (business_nodes rt p).1 !! k = Some v → "-"%char ∉ chars v.
Proof.
  destruct (related_nodes_inv rt p) as (Hids & _ & _).
  intros [(i & c & _ & _ & ->)|(i & c & _ & _ & -> & _)]%Hids;
    apply no_dash_fmt_id; char_absent.
Qed.

End BusinessComplete.

(** X23. The business view draws every reference it is about.  A
    dependency of a class that names a registered component, and a
    dependency of a related component that names a class, each has its
    edge in the diagram, between the nodes recorded for the two names. *)
Theorem business_edges_complete (rt : PyRuntime) (p : VB6Project)
    (a b : Obj) (dep : string) :
  dep ∈ dependencies a → find_component_by_name p dep = Some b →
  (a ∈ objects p ∧ component_type a = "Class")
  ∨ (a ∈ related_components rt p ∧ component_type b = "Class") →
  ∃ s t,
    (business_nodes rt p).1 !! name a = Some s
    ∧ (business_nodes rt p).1 !! name b = Some t
    ∧ (s, t) ∈ edges_of (generate_business_logic_diagram rt p).
Proof.
  intros Hdep Hfind Hcase.
  destruct (find_component_Some _ _ _ Hfind) as [Hb _].
  set (ids := (business_nodes rt p).1).
  assert (Hdash : ∀ k v, ids !! k = Some v → "-"%char ∉ chars v)
    by apply business_ids_no_dash.
  assert (Hlog1 := edge_loop_log rt p ids (λ _, true) _ (class_objects p) (edge_log_init ids)).
  unfold generate_business_logic_diagram.
  rewrite edges_of_diagram by apply related_nodes_inv.
  unfold business_edges. fold ids.
  destruct Hcase as [[Ha Hta]|[Ha Htb]].
  - assert (a ∈ class_objects p) as Hcls by (by apply elem_of_class_objects).
    destruct (class_nodes_kept rt p a Hcls) as [s Hs].
    assert (is_Some (ids !! name b)) as [t Ht].
    { destruct (decide (component_type b = "Class")) as [Hcb|Hcb].
      - apply class_nodes_kept. by apply elem_of_class_objects.
      - apply related_nodes_dom. apply elem_of_related_components.
        split; [done|]. split; [done|]. exists a. split; [done|]. split; [done|].
        right. eauto. }
    exists s, t. split; [done|]. split; [done|].
    apply edge_loop_mono. apply edge_loop_writes; [done|apply edge_log_init|].
    by exists a, dep, b.
  - destruct (related_nodes_dom rt p a Ha) as [s Hs].
    assert (b ∈ class_objects p) as Hcls by (by apply elem_of_class_objects).
    destruct (class_nodes_kept rt p b Hcls) as [t Ht].
    exists s, t. split; [done|]. split; [done|].
    apply edge_loop_writes; [done|done|].
    exists a, dep, b. repeat split; try done. by apply bool_decide_eq_true.
Qed.

Lemma business_edges_complete_witness :
  ("clsData" ∈ dependencies Samples.modUtils)
  ∧ find_component_by_name Samples.test_project "clsData" = Some (mkObj 3 Samples.clsData)
  ∧ (mkObj 2 Samples.modUtils ∈ related_components Samples.run2 Samples.test_project)
  ∧ ∃ s t,
      (business_nodes Samples.run2 Samples.test_project).1 !! "modUtils" = Some s
      ∧ (business_nodes Samples.run2 Samples.test_project).1 !! "clsData" = Some t
      ∧ (s, t) ∈ edges_of (generate_business_logic_diagram Samples.run2 Samples.test_project).
Proof.
  assert (Hdep : "clsData" ∈ dependencies Samples.modUtils) by left.
  assert (Hrel : mkObj 2 Samples.modUtils ∈ related_components Samples.run2 Samples.test_project).
  { vm_compute. left. }
  split; [exact Hdep|]. split; [reflexivity|]. split; [exact Hrel|].
  exact (business_edges_complete Samples.run2 Samples.test_project
           (mkObj 2 Samples.modUtils) (mkObj 3 Samples.clsData) "clsData"
           Hdep eq_refl (or_intror (conj Hrel eq_refl))).
Defined.


(** ** Entries that carry a name *)

Section NamedEntries.

Lemma split_whole (sep : ascii) (s : string) : sep ∉ chars s → split sep s = [s].
Proof.
  induction s as [|a s IH]; simpl; [done|].
  rewrite not_elem_of_cons. intros [Hne Hs].
  rewrite decide_False by done. by rewrite IH.
Qed.

Lemma split_at_first (sep : ascii) (s rest : string) :
  sep ∉ chars s → split sep (s +:+ String sep rest) = s :: split sep rest.
Proof.
  induction s as [|a s IH]; string_cons; simpl.
  - intros _. by rewrite decide_True.
  - rewrite not_elem_of_cons. intros [Hne Hs].
    rewrite decide_False by done. by rewrite IH.
Qed.

End NamedEntries.

(** X24. An entry of the form [file;=name] (no further semicolon) carries
    the given name, stripped and without one pair of surrounding quotes,
    whatever the file is called, and its file name is the stripped text
    before the semicolon.  The entry is appended to the registry under the
    given name when no component answers to it, and otherwise under that
    name followed by [_k], with [k] the first counter from 1 whose suffixed
    name no component answers to. *)
Theorem line_name_given (rt : PyRuntime) (p : VB6Project)
    (file_part given ty : string) :
  ";"%char ∉ chars file_part → ";"%char ∉ chars given →
  let file_info := file_part +:+ String ";" (String "=" given) in
  let given_name := unquote (strip given) in
  line_name rt file_info = given_name
  ∧ line_filename file_info = strip file_part
  ∧ components (add_component_from_line rt p file_info ty).1
    = components p ++ [new_component (unique_name p given_name) (strip file_part) ty]
  ∧ (add_component_from_line rt p file_info ty).2 = true
  ∧ (find_component_by_name p given_name = None → unique_name p given_name = given_name)
  ∧ (is_Some (find_component_by_name p given_name) →
     ∃ k, 1 ≤ k ∧ unique_name p given_name = suffixed given_name k
          ∧ find_component_by_name p (suffixed given_name k) = None
          ∧ ∀ j, 1 ≤ j < k → is_Some (find_component_by_name p (suffixed given_name j))).
Proof.
  intros Hf Hg file_info given_name.
  assert (Hname : line_name rt file_info = given_name).
  { unfold line_name, line_filename, file_info.
    rewrite split_at_first by done.
    rewrite split_whole by (simpl; apply not_elem_of_cons; done).
    reflexivity. }
  assert (Hfile : line_filename file_info = strip file_part).
  { unfold line_filename, file_info. by rewrite split_at_first by done. }
  split; [done|]. split; [done|].
  destruct (add_component_from_line_components rt p file_info ty) as [Hc Hb].
  rewrite Hname, Hfile in Hc.
  split; [done|]. split; [done|]. apply unique_name_spec.
Qed.

Lemma line_name_given_witness :
  (";"%char ∉ chars "Forms/main.frm") ∧ (";"%char ∉ chars " 'frmMain' ")
  ∧ line_name Samples.run1 "Forms/main.frm;= 'frmMain' " = "frmMain"
  ∧ line_filename "Forms/main.frm;= 'frmMain' " = "Forms/main.frm"
  ∧ (λ c, (name c, filename c))
      <$> components (add_component_from_line Samples.run1 Samples.test_project
                        "Forms/main.frm;= 'frmMain' " "Form").1
    = [("frmMain", "frmMain.frm"); ("frmOptions", "frmOptions.frm");
       ("modUtils", "modUtils.bas"); ("clsData", "clsData.cls");
       ("frmMain_1", "Forms/main.frm")].
Proof.
  assert (Hf : ";"%char ∉ chars "Forms/main.frm") by char_absent.
  assert (Hg : ";"%char ∉ chars " 'frmMain' ") by char_absent.
  pose proof (line_name_given Samples.run1 Samples.test_project
                "Forms/main.frm" " 'frmMain' " "Form" Hf Hg) as (Hn & Hfile & Hc & _).
  split; [exact Hf|]. split; [exact Hg|]. split; [exact Hn|]. split; [exact Hfile|].
  refine (eq_trans (f_equal (fmap (λ c, (name c, filename c))) Hc) _).
  vm_compute. reflexivity.
Defined.

(** ** The suffix loop and its bound *)

Section SuffixLoop.

Lemma first_free_unique (p : VB6Project) (nm : string) (k k' : nat) :
  1 ≤ k → 1 ≤ k' →
  find_component_by_name p (suffixed nm k) = None →
  (∀ j, 1 ≤ j < k → is_Some (find_component_by_name p (suffixed nm j))) →
  find_component_by_name p (suffixed nm k') = None →
  (∀ j, 1 ≤ j < k' → is_Some (find_component_by_name p (suffixed nm j))) →
  k = k'.
Proof.
  intros Hk Hk' Hfree Hbelow Hfree' Hbelow'.
  destruct (decide (k < k')) as [Hlt|Hge].
  - destruct (Hbelow' k) as [o Ho]; [lia|congruence].
  - destruct (decide (k' < k)) as [Hlt|Hge']; [|lia].
    destruct (Hbelow k') as [o Ho]; [lia|congruence].
Qed.

End SuffixLoop.

(** X25. The loop that looks for a free suffix stops after at most one
    test more than there are components: the counter it ends at is at
    most [len(components) + 1], and letting it run longer changes
    nothing. *)
Theorem free_counter_bound (p : VB6Project) (nm : string) (fuel : nat) :
  S (length (components p)) ≤ fuel →
  free_counter fuel p nm 1 = free_counter (S (length (components p))) p nm 1
  ∧ 1 ≤ free_counter fuel p nm 1 ≤ S (length (components p)).
Proof.
  intros Hfuel.
  destruct (free_counter_exists p nm) as (free & Hr & Hfree).
  destruct (free_counter_first (S (length (components p))) p nm 1 free Hr Hfree)
    as (Hk & Hn & Hj).
  destruct (free_counter_first fuel p nm 1 free) as (Hk' & Hn' & Hj'); [lia|done|].
  split; [|lia].
  apply (first_free_unique p nm); try done; lia.
Qed.

Lemma free_counter_bound_witness :
  S (length (components Samples.test_project)) ≤ 100
  ∧ free_counter 100 Samples.test_project "frmMain" 1
    = free_counter (S (length (components Samples.test_project))) Samples.test_project "frmMain" 1.
Proof.
  assert (H : S (length (components Samples.test_project)) ≤ 100) by (simpl; lia).
  split; [exact H|].
  exact (proj1 (free_counter_bound Samples.test_project "frmMain" 100 H)).
Defined.

(** ** The node lines of the business view *)

Section BusinessLines.

Lemma related_lines_inv (rt : PyRuntime) (p : VB6Project) (ln : Line) :
  ln ∈ (business_nodes rt p).2 →
  ln ∈ (class_nodes p).2
  ∨ ∃ i (c : Obj),
      related_components rt p !! i = Some c
      ∧ ln = NodeLine (fmt_id "related" i) (safe_name (name c))
                      (Some (related_node_class c)).
Proof.
  revert ln. unfold business_nodes.
  apply (foldl_invariant
           (λ st : NodeState,
              ∀ ln, ln ∈ st.2 →
                    ln ∈ (class_nodes p).2
                    ∨ ∃ i (c : Obj),
                        related_components rt p !! i = Some c
                        ∧ ln = NodeLine (fmt_id "related" i) (safe_name (name c))
                                        (Some (related_node_class c)))).
  - intros st [i c] Hic Hst ln.
    apply elem_of_lookup_imap in Hic as (i' & c' & [= <- <-] & Hc).
    unfold related_node. simpl. destruct (st.1 !! name c); [apply Hst|]. simpl.
    intros [Hin| ->%list_elem_of_singleton]%elem_of_app; [by apply Hst|].
    right. eauto.
  - intros ln Hln. by left.
Qed.

End BusinessLines.

(** X26. Every node line of the business view is either the node of a
    class, numbered by its position among the classes and written without
    a style class, or the node of a related component of another type,
    numbered by its position among the related components and styled by
    its own type in lower case; the style of classes is never given to a
    related node. *)
Theorem business_node_lines (rt : PyRuntime) (p : VB6Project)
    (node_id label : string) (node_class : option string) :
  NodeLine node_id label node_class ∈ generate_business_logic_diagram rt p →
  (node_class = None
   ∧ ∃ i (c : Obj),
       class_objects p !! i = Some c ∧ component_type c = "Class"
       ∧ node_id = fmt_id "class" i ∧ label = safe_name (name c))
  ∨ (∃ i (c : Obj),
       related_components rt p !! i = Some c ∧ component_type c ≠ "Class"
       ∧ node_id = fmt_id "related" i ∧ label = safe_name (name c)
       ∧ node_class = Some (lower (component_type c))).
Proof.
  unfold generate_business_logic_diagram.
  rewrite !elem_of_app. intros [Hh|[Hn|[He|Hs]]].
  - by apply list_elem_of_singleton in Hh.
  - apply related_lines_inv in Hn as [Hc|(i & c & Hc & Heq)].
    + left. unfold class_nodes in Hc.
      destruct (add_nodes_spec "class" (λ _, None) (class_objects p)) as (Hlines & _).
      rewrite Hlines in Hc.
      apply elem_of_lookup_imap in Hc as (i & c & [= -> -> ->] & Hi).
      split; [done|]. exists i, c. split; [done|]. split; [|done].
      by eapply elem_of_class_objects, list_elem_of_lookup_2.
    + right. injection Heq as -> -> ->. exists i, c.
      assert (component_type c ≠ "Class") as Hnc
        by (by eapply related_not_class, list_elem_of_lookup_2).
      repeat split; try done.
      unfold related_node_class. by rewrite decide_False.
  - exfalso. destruct (business_edges_inv rt p) as (_ & Hnodes & _).
    apply node_line_id in He. unfold business_edges in He.
    rewrite Hnodes in He. by apply elem_of_nil in He.
  - by apply list_elem_of_singleton in Hs.
Qed.

Lemma business_node_lines_witness :
  (NodeLine "related1" "frmMain" (Some "form")
     ∈ generate_business_logic_diagram Samples.run2 Samples.test_project)
  ∧ (Some "form" = None
     ∧ (∃ i (c : Obj),
          class_objects Samples.test_project !! i = Some c ∧ component_type c = "Class"
          ∧ "related1" = fmt_id "class" i ∧ "frmMain" = safe_name (name c))
     ∨ ∃ i (c : Obj),
         related_components Samples.run2 Samples.test_project !! i = Some c
         ∧ component_type c ≠ "Class"
         ∧ "related1" = fmt_id "related" i ∧ "frmMain" = safe_name (name c)
         ∧ Some "form" = Some (lower (component_type c))).
Proof.
  assert (H : NodeLine "related1" "frmMain" (Some "form")
              ∈ generate_business_logic_diagram Samples.run2 Samples.test_project).
  { vm_compute. do 3 right. left. }
  split; [exact H|].
  exact (business_node_lines Samples.run2 Samples.test_project _ _ _ H).
Defined.
